(** * Routine builder of the skincare advisor

    A shallow embedding of [src/routines/builder.py]: the routine model
    ([RoutineStep], [Routine], [RoutineAnalysis]), the [RoutineBuilder]
    (analysis, ordering check, missing essentials, routine construction,
    routine suggestion) and the [RoutineAnalyzer] product comparison.

    The knowledge graph ([knowledge.ingredients]) is a collaborator of the
    builder: the builder only calls four of its methods, so it is taken here
    as an interface, the record [IngredientKnowledgeGraph], and every result
    below holds for every implementation of it. *)

From Stdlib Require Import List String Ascii ZArith Bool Lia Arith.
From Stdlib Require Import Sorting.Sorted Sorting.Permutation.
From Stdlib Require Import DecimalString Decimal.
Import ListNotations.

Open Scope string_scope.
Open Scope Z_scope.

(** ** Data of the knowledge graph used by the builder *)

(** [TimeOfDay]: the restriction an ingredient carries. *)
Inductive TimeOfDay : Type := AM_ONLY | PM_ONLY | EITHER.

Definition TimeOfDay_eqb (a b : TimeOfDay) : bool :=
  match a, b with
  | AM_ONLY, AM_ONLY | PM_ONLY, PM_ONLY | EITHER, EITHER => true
  | _, _ => false
  end.

Inductive InteractionType : Type := CONFLICT | CAUTION | SYNERGY | NEUTRAL.

Inductive SkinConcern : Type :=
  | ACNE | AGING | HYPERPIGMENTATION | DRYNESS | OILINESS
  | SENSITIVITY | REDNESS | DULLNESS | TEXTURE | PORES.

(** [c.value] of a concern. *)
Definition SkinConcern_value (c : SkinConcern) : string :=
  match c with
  | ACNE => "acne" | AGING => "aging"
  | HYPERPIGMENTATION => "hyperpigmentation"
  | DRYNESS => "dryness" | OILINESS => "oiliness"
  | SENSITIVITY => "sensitivity" | REDNESS => "redness"
  | DULLNESS => "dullness" | TEXTURE => "texture" | PORES => "pores"
  end.

Definition SkinConcern_eqb (a b : SkinConcern) : bool :=
  String.eqb (SkinConcern_value a) (SkinConcern_value b).

Inductive SkinType : Type := NORMAL | DRY | OILY | COMBINATION | SENSITIVE.

(** An ingredient of the catalog.  [category] holds [category.value]: the
    members of a Python enum are in bijection with their values, so the
    membership test on categories in [suggest_routine] is equality of these
    strings.  [addresses_concerns] is kept in iteration order.
    [application_order] is the layering hint, an integer like the orders
    of [STANDARD_ORDER]; only its comparisons and minimum are used. *)
Record Ingredient : Type := {
  id : string;
  name : string;
  category : string;
  addresses_concerns : list SkinConcern;
  time_of_day : TimeOfDay;
  application_order : Z
}.

(** An interaction record; [wait_minutes] is [None] when the record carries
    no wait time. *)
Record Interaction : Type := {
  interaction_type : InteractionType;
  wait_minutes : option Z
}.

Record SkinProfile : Type := {
  skin_type : SkinType;
  concerns : list SkinConcern
}.

(** One entry of the lists in the dict returned by [check_compatibility]:
    the keys ['ingredient_a'], ['ingredient_b'] and the optional
    ['recommendation']. *)
Record PairEntry : Type := {
  ingredient_a : string;
  ingredient_b : string;
  recommendation : option string
}.

(** The dict returned by [check_compatibility]. *)
Record Compatibility : Type := {
  c_is_compatible : bool;
  c_conflicts : list PairEntry;
  c_cautions : list PairEntry;
  c_synergies : list PairEntry;
  c_wait_times : list PairEntry
}.

(** The methods of [IngredientKnowledgeGraph] that the builder calls. *)
Record IngredientKnowledgeGraph : Type := {
  get_ingredient : string -> option Ingredient;
  get_interaction : string -> string -> option Interaction;
  check_compatibility : list string -> Compatibility;
  get_recommended_ingredients : SkinProfile -> list Ingredient
}.

(** ** The routine model *)

Inductive RoutineTime : Type := AM | PM.

Record RoutineStep : Type := {
  order : Z;
  product_name : string;
  ingredients : list string;
  wait_after : Z;
  notes : string
}.

Record RoutineAnalysis : Type := {
  is_valid : bool;
  conflicts : list PairEntry;
  cautions : list PairEntry;
  synergies : list PairEntry;
  ordering_issues : list string;
  missing_essentials : list string;
  suggestions : list string
}.

Record Routine : Type := {
  time : RoutineTime;
  steps : list RoutineStep
}.

(** [Routine.get_all_ingredients]: the step ingredient lists, concatenated
    in step order. *)
Definition get_all_ingredients (routine : Routine) : list string :=
  flat_map ingredients (steps routine).

(** A product handed to [build_routine]: the dict
    [{"name": ..., "ingredients": [...]}]. *)
Record Product : Type := {
  p_name : string;
  p_ingredients : list string
}.

(** An entry of the list returned by [suggest_routine]. *)
Record Suggestion : Type := {
  s_step : string;
  s_why : string;
  s_ingredients : list string;
  s_priority : string
}.

(** The dict returned by [compare_products]. *)
Record Comparison : Type := {
  can_use_together : bool;
  cmp_conflicts : list PairEntry;
  cmp_cautions : list PairEntry;
  cmp_synergies : list PairEntry;
  cmp_recommendation : string
}.

(** ** Python built-ins used by the builder *)

(** [str(n)] of a non-negative integer. *)
Definition str_of_nat (n : nat) : string :=
  NilEmpty.string_of_uint (Nat.to_uint n).

(** [enumerate(l)]. *)
Definition enumerate {A : Type} (l : list A) : list (nat * A) :=
  combine (seq 0 (List.length l)) l.

(** [min(o :: os)]. *)
Definition py_min (o : Z) (os : list Z) : Z := fold_left Z.min os o.

(** [sep.join(l)]. *)
Fixpoint join (sep : string) (l : list string) : string :=
  match l with
  | [] => ""
  | [x] => x
  | x :: rest => x ++ sep ++ join sep rest
  end.

(** [sorted(l, key=key)]: Python's sort is stable.  An element is put in
    front of the elements of the sorted tail whose key is not smaller, so
    it stays before the later elements with the same key. *)
Section Sorted.
Context {A : Type} (key : A -> Z).

Fixpoint insert_by_key (x : A) (l : list A) : list A :=
  match l with
  | [] => [x]
  | y :: l' =>
      if key x <=? key y then x :: y :: l' else y :: insert_by_key x l'
  end.

Fixpoint sorted (l : list A) : list A :=
  match l with
  | [] => []
  | x :: l' => insert_by_key x (sorted l')
  end.
End Sorted.

(** ** RoutineBuilder *)

Section RoutineBuilder.

Variable kg : IngredientKnowledgeGraph.

(** The loop that collects [ingredient.application_order] of the ids that
    resolve. *)
Definition collect_orders (ingredient_ids : list string) : list Z :=
  flat_map
    (fun ing_id =>
       match get_ingredient kg ing_id with
       | Some ingredient => [application_order ingredient]
       | None => []
       end)
    ingredient_ids.

(** [RoutineBuilder._get_product_order]. *)
Definition _get_product_order (ingredient_ids : list string) : Z :=
  match ingredient_ids with
  | [] => 5
  | _ =>
      match collect_orders ingredient_ids with
      | [] => 5
      | o :: os => py_min o os
      end
  end.

(** [RoutineBuilder._get_step_order]. *)
Definition _get_step_order (step : RoutineStep) : Z :=
  match ingredients step with
  | [] => 5
  | _ =>
      match collect_orders (ingredients step) with
      | [] => 5
      | o :: os => py_min o os
      end
  end.

(** The message appended by [_check_ordering] for the steps at the
    (0-based) indices [i] and [j]. *)
Definition ordering_issue (i : nat) (step : RoutineStep)
    (j : nat) (later_step : RoutineStep) : string :=
  "'" ++ product_name step ++ "' (step " ++ str_of_nat (i + 1)
  ++ ") should come after '" ++ product_name later_step
  ++ "' (step " ++ str_of_nat (j + 1) ++ ")".

(** The inner loop of [_check_ordering]: [later_steps] is what is left of
    [enumerate(routine.steps[i+1:], i+1)], its first element having
    index [j]. *)
Fixpoint check_later (i : nat) (step : RoutineStep)
    (j : nat) (later_steps : list RoutineStep) : list string :=
  match later_steps with
  | [] => []
  | later_step :: rest =>
      let step_order := _get_step_order step in
      let later_order := _get_step_order later_step in
      ((if step_order >? later_order
        then [ordering_issue i step j later_step]
        else []) ++ check_later i step (S j) rest)%list
  end.

(** The outer loop of [_check_ordering], at index [i]. *)
Fixpoint check_from (i : nat) (steps : list RoutineStep) : list string :=
  match steps with
  | [] => []
  | step :: rest =>
      (check_later i step (i + 1) rest ++ check_from (S i) rest)%list
  end.

(** [RoutineBuilder._check_ordering]. *)
Definition _check_ordering (routine : Routine) : list string :=
  check_from 0 (steps routine).

(** [any(get_ingredient(i) and get_ingredient(i).category.value in cats
        for i in ids)]. *)
Definition any_category_in (cats : list string) (ids : list string) : bool :=
  existsb
    (fun ing_id =>
       match get_ingredient kg ing_id with
       | Some ingredient => existsb (String.eqb (category ingredient)) cats
       | None => false
       end)
    ids.

Definition missing_spf : string :=
  "Sunscreen (SPF) - essential for morning routine".

Definition missing_moisturizer : string :=
  "Moisturizer - needed to maintain skin barrier".

(** [RoutineBuilder._check_missing_essentials]. *)
Definition _check_missing_essentials (routine : Routine)
    (profile : option SkinProfile) : list string :=
  let all_ingredients := get_all_ingredients routine in
  let missing :=
    match time routine with
    | AM =>
        let has_spf := any_category_in ["sunscreen"] all_ingredients in
        if negb has_spf then [missing_spf] else []
    | PM => []
    end in
  let has_moisturizer :=
    any_category_in ["moisturizer"; "ceramide"] all_ingredients in
  (missing ++ (if negb has_moisturizer then [missing_moisturizer] else []))%list.

(** [RoutineBuilder._generate_suggestions]. *)
Definition _generate_suggestions (routine : Routine)
    (compatibility : Compatibility) (profile : option SkinProfile)
    : list string :=
  let waits :=
    map (fun wait_pair =>
           "Wait 20-30 minutes between " ++ ingredient_a wait_pair
           ++ " and " ++ ingredient_b wait_pair)
        (c_wait_times compatibility) in
  let removals :=
    map (fun conflict =>
           "Consider removing one of: " ++ ingredient_a conflict ++ " or "
           ++ ingredient_b conflict ++ ". "
           ++ match recommendation conflict with
              | Some r => r
              | None => ""
              end)
        (c_conflicts compatibility) in
  let profile_based :=
    match profile with
    | Some profile =>
        if existsb (SkinConcern_eqb AGING) (concerns profile) then
          let all_ings := get_all_ingredients routine in
          let has_retinoid := any_category_in ["retinoid"] all_ings in
          match time routine with
          | PM =>
              if negb has_retinoid
              then ["Consider adding a retinoid for anti-aging (PM routine only)"]
              else []
          | AM => []
          end
        else []
    | None => []
    end in
  (waits ++ removals ++ profile_based)%list.

(** [RoutineBuilder.analyze_routine]. *)
Definition analyze_routine (routine : Routine)
    (profile : option SkinProfile) : RoutineAnalysis :=
  let all_ingredients := get_all_ingredients routine in
  let compatibility := check_compatibility kg all_ingredients in
  let ordering_issues := _check_ordering routine in
  let missing := _check_missing_essentials routine profile in
  let suggestions := _generate_suggestions routine compatibility profile in
  {| is_valid :=
       (List.length (c_conflicts compatibility) =? 0)%nat
       && (List.length ordering_issues =? 0)%nat;
     conflicts := c_conflicts compatibility;
     cautions := c_cautions compatibility;
     synergies := c_synergies compatibility;
     ordering_issues := ordering_issues;
     missing_essentials := missing;
     suggestions := suggestions |}.

(** [RoutineBuilder._check_time_appropriateness]: the first resolved
    ingredient restricted to the other time of day decides. *)
Fixpoint _check_time_appropriateness (ingredient_ids : list string)
    (time : RoutineTime) : bool * string :=
  match ingredient_ids with
  | [] => (true, "")
  | ing_id :: rest =>
      match get_ingredient kg ing_id with
      | None => _check_time_appropriateness rest time
      | Some ingredient =>
          match time with
          | AM =>
              if TimeOfDay_eqb (time_of_day ingredient) PM_ONLY
              then (false, name ingredient ++ " should only be used at night")
              else _check_time_appropriateness rest time
          | PM =>
              if TimeOfDay_eqb (time_of_day ingredient) AM_ONLY
              then (false,
                    name ingredient ++ " should only be used in the morning")
              else _check_time_appropriateness rest time
          end
      end
  end.

(** The body of the inner loop of [_calculate_wait_time]:
    [if interaction and interaction.wait_minutes], where a wait of [0] is
    falsy. *)
Definition update_max_wait (max_wait : Z) (curr_id next_id : string) : Z :=
  match get_interaction kg curr_id next_id with
  | Some interaction =>
      match wait_minutes interaction with
      | Some w => if w =? 0 then max_wait else Z.max max_wait w
      | None => max_wait
      end
  | None => max_wait
  end.

(** [RoutineBuilder._calculate_wait_time]. *)
Definition _calculate_wait_time
    (current_ingredients next_ingredients : list string) : Z :=
  fold_left
    (fun max_wait curr_id =>
       fold_left
         (fun max_wait next_id => update_max_wait max_wait curr_id next_id)
         next_ingredients max_wait)
    current_ingredients 0.

(** The sort key of [build_routine]. *)
Definition product_key (p : Product) : Z :=
  _get_product_order (p_ingredients p).

(** The body of the loop of [build_routine] that builds the step of the
    product at index [i] of [sorted_products]. *)
Definition build_step (time : RoutineTime) (sorted_products : list Product)
    (i : nat) (product : Product) : RoutineStep :=
  let '(time_ok, time_note) :=
    _check_time_appropriateness (p_ingredients product) time in
  let wait_time :=
    _calculate_wait_time
      (p_ingredients product)
      (if (i + 1 <? List.length sorted_products)%nat
       then match nth_error sorted_products (i + 1) with
            | Some next_product => p_ingredients next_product
            | None => []
            end
       else []) in
  {| order := Z.of_nat i + 1;
     product_name := p_name product;
     ingredients := p_ingredients product;
     wait_after := wait_time;
     notes := if negb time_ok then time_note else "" |}.

(** [RoutineBuilder.build_routine]. *)
Definition build_routine (products : list Product) (time : RoutineTime)
    (profile : option SkinProfile) : Routine * RoutineAnalysis :=
  let sorted_products := sorted product_key products in
  let steps :=
    map (fun '(i, product) => build_step time sorted_products i product)
        (enumerate sorted_products) in
  let routine := {| time := time; steps := steps |} in
  let analysis := analyze_routine routine profile in
  (routine, analysis).

(** The three fixed entries of [suggest_routine]. *)
Definition cleanser_step : Suggestion :=
  {| s_step := "Cleanser";
     s_why := "Removes dirt, oil, and products";
     s_ingredients := ["cleanser"];
     s_priority := "essential" |}.

Definition moisturizer_step : Suggestion :=
  {| s_step := "Moisturizer";
     s_why := "Maintains skin barrier and hydration";
     s_ingredients := ["ceramides"; "hyaluronic_acid"];
     s_priority := "essential" |}.

Definition sunscreen_step : Suggestion :=
  {| s_step := "Sunscreen (SPF 30+)";
     s_why := "Protects from UV damage - the #1 anti-aging step";
     s_ingredients := ["spf"];
     s_priority := "essential" |}.

(** The filter of [suggest_routine] on the time of day. *)
Definition valid_for_time (time : RoutineTime) (ing : Ingredient) : bool :=
  match time with
  | AM => negb (TimeOfDay_eqb (time_of_day ing) PM_ONLY)
  | PM => negb (TimeOfDay_eqb (time_of_day ing) AM_ONLY)
  end.

(** The entry appended for a treatment ingredient. *)
Definition treatment_step (profile : SkinProfile) (ingredient : Ingredient)
    : Suggestion :=
  let concerns_addressed :=
    map SkinConcern_value
        (filter (fun c => existsb (SkinConcern_eqb c) (concerns profile))
                (addresses_concerns ingredient)) in
  {| s_step := "Treatment: " ++ name ingredient;
     s_why := "Addresses: " ++ join ", " concerns_addressed;
     s_ingredients := [id ingredient];
     s_priority := "recommended" |}.

(** The loop of [suggest_routine] over [time_appropriate[:5]];
    [added_categories] is the set built so far. *)
Fixpoint add_treatments (profile : SkinProfile)
    (candidates : list Ingredient) (added_categories : list string)
    : list Suggestion :=
  match candidates with
  | [] => []
  | ingredient :: rest =>
      if negb (existsb (String.eqb (category ingredient)) added_categories)
      then treatment_step profile ingredient
           :: add_treatments profile rest
                (category ingredient :: added_categories)
      else add_treatments profile rest added_categories
  end.

(** [RoutineBuilder.suggest_routine]. *)
Definition suggest_routine (profile : SkinProfile) (time : RoutineTime)
    (budget : string) : list Suggestion :=
  let recommended := get_recommended_ingredients kg profile in
  let time_appropriate := filter (valid_for_time time) recommended in
  ([cleanser_step]
   ++ add_treatments profile (firstn 5 time_appropriate) []
   ++ [moisturizer_step]
   ++ match time with
      | AM => [sunscreen_step]
      | PM => []
      end)%list.

(** ** RoutineAnalyzer *)

Definition advice_conflict : string :=
  "These products should NOT be used together in the same routine.".

Definition advice_caution : string :=
  "These can be used together with caution. Consider using on alternate days if irritation occurs.".

Definition advice_synergy : string :=
  "Great combination! These products complement each other well.".

Definition advice_none : string :=
  "No known interactions. Should be safe to use together.".

(** [RoutineAnalyzer._generate_combination_advice]: a non-empty list is
    truthy. *)
Definition _generate_combination_advice (compatibility : Compatibility)
    : string :=
  match c_conflicts compatibility with
  | _ :: _ => advice_conflict
  | [] =>
      match c_cautions compatibility with
      | _ :: _ => advice_caution
      | [] =>
          match c_synergies compatibility with
          | _ :: _ => advice_synergy
          | [] => advice_none
          end
      end
  end.

(** [RoutineAnalyzer.compare_products]. *)
Definition compare_products (product_a product_b : list string)
    : Comparison :=
  let all_ingredients := (product_a ++ product_b)%list in
  let compatibility := check_compatibility kg all_ingredients in
  {| can_use_together := c_is_compatible compatibility;
     cmp_conflicts := c_conflicts compatibility;
     cmp_cautions := c_cautions compatibility;
     cmp_synergies := c_synergies compatibility;
     cmp_recommendation := _generate_combination_advice compatibility |}.

End RoutineBuilder.

(** *** The ingredient-list analysis *)

(** [sorted(set(l))] for strings: the distinct elements in increasing
    order.  Python orders strings by code point, which is the order of
    their bytes. *)
Fixpoint insert_str (x : string) (l : list string) : list string :=
  match l with
  | [] => [x]
  | y :: l' =>
      match String.compare x y with
      | Lt => x :: y :: l'
      | Eq => y :: l'
      | Gt => y :: insert_str x l'
      end
  end.

Definition sorted_set (l : list string) : list string :=
  fold_right insert_str [] l.

(** An entry of [identified_ingredients]. *)
Record Identified : Type := {
  i_name : string;
  i_id : string;
  i_category : string;
  i_concerns_addressed : list string;
  i_caution_for : list string
}.

(** The dict returned by [analyze_ingredient_list]. *)
Record ListAnalysis : Type := {
  identified_ingredients : list Identified;
  unrecognized : list string;
  compatibility : Compatibility;
  summary : string
}.

Definition newline : string := String "010"%char EmptyString.

Section RoutineAnalyzer.

Variable kg : IngredientKnowledgeGraph.

(** [[s.value for s in ingredient.caution_skin_types]]: the field
    [caution_skin_types] is not read by the builder and is left out of
    [Ingredient], so its values are given by this function. *)
Variable caution_for : Ingredient -> list string.

(** The dict appended to [found] for a resolved ingredient. *)
Definition describe (ingredient : Ingredient) : Identified :=
  {| i_name := name ingredient;
     i_id := id ingredient;
     i_category := category ingredient;
     i_concerns_addressed :=
       map SkinConcern_value (addresses_concerns ingredient);
     i_caution_for := caution_for ingredient |}.

(** The loop of [analyze_ingredient_list]: the lists [found] and
    [not_found] it builds, each in input order. *)
Fixpoint identify (ingredient_names : list string)
    : list Identified * list string :=
  match ingredient_names with
  | [] => ([], [])
  | name :: rest =>
      let '(found, not_found) := identify rest in
      match get_ingredient kg name with
      | Some ingredient => (describe ingredient :: found, not_found)
      | None => (found, name :: not_found)
      end
  end.

(** [RoutineAnalyzer._generate_summary]. *)
Definition _generate_summary (found : list Identified)
    (compatibility : Compatibility) : string :=
  let conflict_line :=
    match c_conflicts compatibility with
    | [] => []
    | _ :: _ =>
        ["âš ï¸ Found "
         ++ str_of_nat (List.length (c_conflicts compatibility))
         ++ " ingredient conflict(s)"]
    end in
  let synergy_line :=
    match c_synergies compatibility with
    | [] => []
    | _ :: _ =>
        ["âœ¨ Found "
         ++ str_of_nat (List.length (c_synergies compatibility))
         ++ " beneficial combination(s)"]
    end in
  let concerns := sorted_set (flat_map i_concerns_addressed found) in
  let concern_line :=
    match concerns with
    | [] => []
    | _ :: _ => ["ðŸ“‹ This addresses: " ++ join ", " concerns]
    end in
  let lines := (conflict_line ++ synergy_line ++ concern_line)%list in
  match lines with
  | [] => "No notable interactions found."
  | _ :: _ => join newline lines
  end.

(** [RoutineAnalyzer.analyze_ingredient_list]. *)
Definition analyze_ingredient_list (ingredient_names : list string)
    : ListAnalysis :=
  let '(found, not_found) := identify ingredient_names in
  let found_ids := map i_id found in
  let compatibility := check_compatibility kg found_ids in
  {| identified_ingredients := found;
     unrecognized := not_found;
     compatibility := compatibility;
     summary := _generate_summary found compatibility |}.

End RoutineAnalyzer.

(** ** SkincareAdvisor: the concern table *)

(** [term in text]. *)
Fixpoint contains (term text : string) : bool :=
  String.prefix term text
  || match text with
     | EmptyString => false
     | String _ rest => contains term rest
     end.

(** [concern_mapping] of [_handle_concern_advice], in insertion order. *)
Definition concern_mapping : list (string * SkinConcern) :=
  [("acne", ACNE); ("pimples", ACNE); ("breakouts", ACNE);
   ("aging", AGING); ("anti-aging", AGING); ("wrinkles", AGING);
   ("fine lines", AGING);
   ("dark spots", HYPERPIGMENTATION);
   ("hyperpigmentation", HYPERPIGMENTATION);
   ("pigmentation", HYPERPIGMENTATION);
   ("uneven skin tone", HYPERPIGMENTATION);
   ("dry skin", DRYNESS); ("dryness", DRYNESS); ("dehydration", DRYNESS);
   ("oily skin", OILINESS); ("oiliness", OILINESS); ("shine", OILINESS);
   ("sensitivity", SENSITIVITY); ("sensitive skin", SENSITIVITY);
   ("redness", REDNESS);
   ("dull skin", DULLNESS); ("dullness", DULLNESS);
   ("texture", TEXTURE); ("rough skin", TEXTURE);
   ("pores", PORES); ("large pores", PORES)].

(** The loop of [_handle_concern_advice] over [concern_mapping.items()]:
    the concern of the first term found in [text], which is
    [concern_text.lower()]; [None] when the loop ends without a match. *)
Definition find_concern (text : string) : option SkinConcern :=
  option_map snd
    (find (fun entry => contains (fst entry) text) concern_mapping).

(** ** Notions used to state the properties *)


Definition no_step : RoutineStep :=
  {| order := 0; product_name := ""; ingredients := [];
     wait_after := 0; notes := "" |}.

(** The step at a (0-based) index of a list of steps. *)
Definition step_at (l : list RoutineStep) (i : nat) : RoutineStep :=
  nth i l no_step.

(** The step at [i] has a larger effective order than the step at [j]. *)
Definition out_of_order (kg : IngredientKnowledgeGraph)
    (l : list RoutineStep) (ij : nat * nat) : bool :=
  _get_step_order kg (step_at l (fst ij))
  >? _get_step_order kg (step_at l (snd ij)).

(** The issue reported for the pair of indices [ij]. *)
Definition issue_at (l : list RoutineStep) (ij : nat * nat) : string :=
  ordering_issue (fst ij) (step_at l (fst ij)) (snd ij) (step_at l (snd ij)).

(** The product a step was built from. *)
Definition step_product (step : RoutineStep) : Product :=
  {| p_name := product_name step; p_ingredients := ingredients step |}.

(** The interaction record found for the pair [(a, b)] carries the wait
    time [w]. *)
Definition carries_wait (kg : IngredientKnowledgeGraph) (a b : string)
    (w : Z) : Prop :=
  exists i, get_interaction kg a b = Some i /\ wait_minutes i = Some w.

(** The ingredients of the step that follows the step at index [k];
    none after the last step. *)
Definition next_ingredients (l : list RoutineStep) (k : nat) : list string :=
  match nth_error l (S k) with
  | Some next_step => ingredients next_step
  | None => []
  end.

(** The missing-sunscreen entry as the specification spells it, with a
    dash (U+2014) where the source has a hyphen. *)
Definition missing_spf_dash : string :=
  "Sunscreen (SPF) — essential for morning routine".

(** Some ingredient of the routine resolves to the category [cat]. *)
Definition has_category (kg : IngredientKnowledgeGraph) (cat : string)
    (routine : Routine) : Prop :=
  exists ing_id ing,
    In ing_id (get_all_ingredients routine)
    /\ get_ingredient kg ing_id = Some ing
    /\ category ing = cat.

(** The ingredient is restricted to the time of day opposite to [time]. *)
Definition restricted_to_other (time : RoutineTime) (ing : Ingredient)
    : Prop :=
  match time with
  | AM => time_of_day ing = PM_ONLY
  | PM => time_of_day ing = AM_ONLY
  end.

(** The note of [_check_time_appropriateness] about such an ingredient. *)
Definition time_note (time : RoutineTime) (ing : Ingredient) : string :=
  match time with
  | AM => name ing ++ " should only be used at night"
  | PM => name ing ++ " should only be used in the morning"
  end.

(** Some ingredient id of the list resolves to an ingredient restricted
    to the other time of day. *)
Definition has_restricted (kg : IngredientKnowledgeGraph)
    (time : RoutineTime) (ids : list string) : Prop :=
  exists ing_id ing,
    In ing_id ids /\ get_ingredient kg ing_id = Some ing
    /\ restricted_to_other time ing.

(** The ingredients for which the loop of [suggest_routine] appends a
    treatment entry: the candidates whose category is not yet in
    [added_categories]. *)
Fixpoint select_treatments (candidates : list Ingredient)
    (added_categories : list string) : list Ingredient :=
  match candidates with
  | [] => []
  | ingredient :: rest =>
      if negb (existsb (String.eqb (category ingredient)) added_categories)
      then ingredient
           :: select_treatments rest (category ingredient :: added_categories)
      else select_treatments rest added_categories
  end.

(** The ingredients treated in a suggested routine. *)
Definition treated (kg : IngredientKnowledgeGraph) (profile : SkinProfile)
    (time : RoutineTime) : list Ingredient :=
  select_treatments
    (firstn 5 (filter (valid_for_time time)
                      (get_recommended_ingredients kg profile)))
    [].

(** The entries labelled as the moisturizer step. *)
Definition moisturizer_steps (l : list Suggestion) : list Suggestion :=
  filter (fun s => String.eqb (s_step s) "Moisturizer") l.

(** A moisturizer step comes before the end of the list: some entry
    follows it. *)
Definition moisturizer_before_end (l : list Suggestion) : Prop :=
  exists pre post,
    l = (pre ++ moisturizer_step :: post)%list /\ post <> [].

(** [o] is the effective application order of the product [p], read off
    its ingredients: the least application order of the ingredient ids
    that resolve in the catalog, or 5 when none resolves. *)
Definition effective_order_is (kg : IngredientKnowledgeGraph) (p : Product)
    (o : Z) : Prop :=
  (forall ing_id ing,
      In ing_id (p_ingredients p) ->
      get_ingredient kg ing_id = Some ing ->
      o <= application_order ing)
  /\ ((exists ing_id ing,
          In ing_id (p_ingredients p)
          /\ get_ingredient kg ing_id = Some ing
          /\ o = application_order ing)
      \/ ((forall ing_id,
              In ing_id (p_ingredients p) -> get_ingredient kg ing_id = None)
          /\ o = 5)).

(** ** A sample knowledge graph

    A small catalog on which the definitions above are run.  It holds the
    scenario of the specification: [retinol] (a retinoid, for the evening
    only) and [vitamin_c] (an active serum), with a cautionary interaction
    that asks for a wait of 20 minutes. *)

Module Fixture.

Definition mk (i n c : string) (cs : list SkinConcern) (t : TimeOfDay)
    (o : Z) : Ingredient :=
  {| id := i; name := n; category := c; addresses_concerns := cs;
     time_of_day := t; application_order := o |}.

Definition retinol := mk "retinol" "Retinol" "retinoid" [AGING; ACNE] PM_ONLY 5.
Definition vitamin_c :=
  mk "vitamin_c" "Vitamin C" "serum_active" [HYPERPIGMENTATION; AGING] EITHER 4.
Definition niacinamide :=
  mk "niacinamide" "Niacinamide" "serum_active" [PORES; AGING] EITHER 4.
Definition hyaluronic_acid :=
  mk "hyaluronic_acid" "Hyaluronic Acid" "serum_water" [DRYNESS] EITHER 3.
Definition ceramides :=
  mk "ceramides" "Ceramides" "ceramide" [DRYNESS; SENSITIVITY] EITHER 8.
Definition spf := mk "spf" "Sunscreen" "sunscreen" [AGING] AM_ONLY 10.
Definition benzoyl_peroxide :=
  mk "benzoyl_peroxide" "Benzoyl Peroxide" "serum_active" [ACNE] EITHER 5.

Definition catalog : list Ingredient :=
  [retinol; vitamin_c; niacinamide; hyaluronic_acid; ceramides; spf;
   benzoyl_peroxide].

Definition interactions : list (string * string * Interaction) :=
  [("retinol", "vitamin_c",
    {| interaction_type := CAUTION; wait_minutes := Some 20 |});
   ("retinol", "benzoyl_peroxide",
    {| interaction_type := CONFLICT; wait_minutes := None |});
   ("vitamin_c", "niacinamide",
    {| interaction_type := CAUTION; wait_minutes := Some 10 |});
   ("hyaluronic_acid", "ceramides",
    {| interaction_type := SYNERGY; wait_minutes := None |})].

Definition lookup (ing_id : string) : option Ingredient :=
  find (fun ing => String.eqb (id ing) ing_id) catalog.

Definition interaction_of (a b : string) : option Interaction :=
  option_map snd
    (find (fun '(x, y, _) =>
             (String.eqb x a && String.eqb y b)
             || (String.eqb x b && String.eqb y a))
          interactions).

Definition entry (a b : string) : PairEntry :=
  {| ingredient_a := a; ingredient_b := b; recommendation := None |}.

(** The unordered pairs of a list, each once. *)
Fixpoint pairs_of (ids : list string) : list (string * string) :=
  match ids with
  | [] => []
  | a :: rest => (map (fun b => (a, b)) rest ++ pairs_of rest)%list
  end.

Definition of_kind (k : InteractionType) (ab : string * string) : bool :=
  match interaction_of (fst ab) (snd ab) with
  | Some i =>
      match interaction_type i, k with
      | CONFLICT, CONFLICT | CAUTION, CAUTION | SYNERGY, SYNERGY => true
      | _, _ => false
      end
  | None => false
  end.

Definition has_wait (ab : string * string) : bool :=
  match interaction_of (fst ab) (snd ab) with
  | Some i => match wait_minutes i with Some w => 0 <? w | None => false end
  | None => false
  end.

(** A sample [check_compatibility], after section 4.1 of the
    specification: every unordered pair is classified by its interaction
    record; [is_compatible] is false iff some pair is a conflict;
    [wait_times] holds the pairs with a positive wait. *)
Definition compatibility_of (ids : list string) : Compatibility :=
  let ps := pairs_of ids in
  let bucket f := map (fun ab => entry (fst ab) (snd ab)) (filter f ps) in
  {| c_is_compatible :=
       match filter (of_kind CONFLICT) ps with [] => true | _ => false end;
     c_conflicts := bucket (of_kind CONFLICT);
     c_cautions := bucket (of_kind CAUTION);
     c_synergies := bucket (of_kind SYNERGY);
     c_wait_times := bucket has_wait |}.

(** The catalog ingredients that address a concern of the profile, in
    catalog order. *)
Definition recommended_for (profile : SkinProfile) : list Ingredient :=
  filter
    (fun ing =>
       existsb (fun c => existsb (SkinConcern_eqb c) (concerns profile))
               (addresses_concerns ing))
    catalog.

Definition kg : IngredientKnowledgeGraph :=
  {| get_ingredient := lookup;
     get_interaction := interaction_of;
     check_compatibility := compatibility_of;
     get_recommended_ingredients := recommended_for |}.

Definition aging_profile : SkinProfile :=
  {| skin_type := NORMAL; concerns := [AGING] |}.

Definition step_of (n : Z) (nm : string) (ids : list string) : RoutineStep :=
  {| order := n; product_name := nm; ingredients := ids;
     wait_after := 0; notes := "" |}.

Definition product (nm : string) (ids : list string) : Product :=
  {| p_name := nm; p_ingredients := ids |}.

End Fixture.

(** The profile-driven suggestion of [_generate_suggestions]. *)
Definition retinoid_suggestion : string :=
  "Consider adding a retinoid for anti-aging (PM routine only)".

(** The profile asks for the retinoid suggestion: it is given and lists
    the concern [AGING]. *)
Definition wants_retinoid (profile : option SkinProfile) : Prop :=
  exists p, profile = Some p /\ In AGING (concerns p).

(** [term] occurs in [text]. *)
Definition occurs_in (term text : string) : Prop :=
  exists pre post, text = pre ++ term ++ post.

(** The check of a knowledge graph reports [is_compatible] exactly when
    it lists no conflict. *)
Definition flag_agrees (kg : IngredientKnowledgeGraph) : Prop :=
  forall ids,
    c_is_compatible (check_compatibility kg ids) = true
    <-> c_conflicts (check_compatibility kg ids) = [].

(** The interaction lookup of a knowledge graph ignores the order of its
    arguments. *)
Definition symmetric_interactions (kg : IngredientKnowledgeGraph) : Prop :=
  forall a b, get_interaction kg a b = get_interaction kg b a.

(** * Properties *)

(** ** Facts on the built-ins *)

Lemma py_min_le_init (os : list Z) (o : Z) : py_min o os <= o.
Proof.
  unfold py_min. revert o.
  induction os as [|x os IH]; intros o; simpl; [lia|].
  specialize (IH (Z.min o x)). lia.
Qed.

Lemma py_min_lower_bound (os : list Z) (o x : Z) :
  In x (o :: os) -> py_min o os <= x.
Proof.
  revert o. induction os as [|y os IH]; intros o Hin.
  - destruct Hin as [<-|[]]. apply py_min_le_init.
  - destruct Hin as [Hx|[Hx|Hin]].
    + subst x. apply py_min_le_init.
    + subst x. unfold py_min; simpl.
      pose proof (py_min_le_init os (Z.min o y)) as H.
      unfold py_min in H. lia.
    + unfold py_min; simpl. apply (IH (Z.min o y)). now right.
Qed.

Lemma py_min_attained (os : list Z) (o : Z) : In (py_min o os) (o :: os).
Proof.
  revert o. induction os as [|y os IH]; intros o.
  - now left.
  - unfold py_min; simpl. fold (py_min (Z.min o y) os).
    destruct (IH (Z.min o y)) as [H|H].
    + rewrite <- H.
      destruct (Z.min_spec o y) as [[_ ->]|[_ ->]]; [now left | right; now left].
    + right; now right.
Qed.

Section BuilderFacts.

Variable kg : IngredientKnowledgeGraph.

Lemma collect_orders_In (ids : list string) (o : Z) :
  In o (collect_orders kg ids) <->
  exists ing_id ing,
    In ing_id ids /\ get_ingredient kg ing_id = Some ing
    /\ application_order ing = o.
Proof.
  unfold collect_orders. rewrite in_flat_map. split.
  - intros (ing_id & Hin & Ho).
    destruct (get_ingredient kg ing_id) as [ing|] eqn:E; [|contradiction].
    destruct Ho as [<-|[]]. now exists ing_id, ing.
  - intros (ing_id & ing & Hin & E & <-).
    exists ing_id. split; [assumption|]. rewrite E. now left.
Qed.

Lemma collect_orders_nil (ids : list string) :
  collect_orders kg ids = [] ->
  forall ing_id, In ing_id ids -> get_ingredient kg ing_id = None.
Proof.
  intros Hnil ing_id Hin.
  destruct (get_ingredient kg ing_id) as [ing|] eqn:E; [|reflexivity].
  assert (H : In (application_order ing) (collect_orders kg ids)).
  { apply collect_orders_In. now exists ing_id, ing. }
  rewrite Hnil in H. contradiction.
Qed.

Lemma get_step_order_product (step : RoutineStep) :
  _get_step_order kg step = _get_product_order kg (ingredients step).
Proof. reflexivity. Qed.

End BuilderFacts.

(** ** The validity flag *)

(** C1.  The analysis of a routine is valid exactly when it lists no
    conflict and no ordering issue; the cautions and the missing
    essentials play no part in it. *)
Theorem analyze_routine_is_valid (kg : IngredientKnowledgeGraph)
    (routine : Routine) (profile : option SkinProfile) :
  is_valid (analyze_routine kg routine profile) = true <->
  conflicts (analyze_routine kg routine profile) = []
  /\ ordering_issues (analyze_routine kg routine profile) = [].
Proof.
  unfold analyze_routine; simpl.
  rewrite andb_true_iff, !Nat.eqb_eq, !length_zero_iff_nil.
  reflexivity.
Qed.

(** An evening routine of the sample catalog with a caution and without a
    moisturizer is valid all the same. *)
Lemma analyze_routine_is_valid_witness :
  let routine :=
    {| time := PM;
       steps := [Fixture.step_of 1 "C serum" ["vitamin_c"];
                 Fixture.step_of 2 "Retinol serum" ["retinol"]] |} in
  let analysis := analyze_routine Fixture.kg routine None in
  is_valid analysis = true
  /\ cautions analysis <> []
  /\ missing_essentials analysis <> [].
Proof.
  intros routine analysis. split.
  - apply (proj2 (analyze_routine_is_valid Fixture.kg routine None)).
    split; reflexivity.
  - split; discriminate.
Defined.

(** ** The effective application order *)

(** C3.  The sort key of [build_routine] for a product is the least
    application order among its ingredient ids that resolve in the
    catalog: it is below the order of every resolved ingredient and is
    the order of one of them; ids that do not resolve take no part, and
    when no id resolves (the list may be empty) the key is 5.  The order
    of a step is computed in the same way from the step's ingredients. *)
Theorem product_order_is_min_resolved (kg : IngredientKnowledgeGraph)
    (p : Product) :
  (forall ing_id ing,
      In ing_id (p_ingredients p) ->
      get_ingredient kg ing_id = Some ing ->
      product_key kg p <= application_order ing)
  /\ ((exists ing_id ing,
          In ing_id (p_ingredients p)
          /\ get_ingredient kg ing_id = Some ing
          /\ product_key kg p = application_order ing)
      \/ ((forall ing_id,
              In ing_id (p_ingredients p) -> get_ingredient kg ing_id = None)
          /\ product_key kg p = 5))
  /\ (forall step,
         ingredients step = p_ingredients p ->
         _get_step_order kg step = product_key kg p).
Proof.
  unfold product_key, _get_product_order.
  destruct p as [nm ids]; simpl.
  split; [|split].
  - intros ing_id ing Hin E.
    assert (Ho : In (application_order ing) (collect_orders kg ids)).
    { apply collect_orders_In. now exists ing_id, ing. }
    destruct ids as [|i0 ids']; [contradiction|].
    destruct (collect_orders kg (i0 :: ids')) as [|o os]; [contradiction|].
    now apply py_min_lower_bound.
  - destruct ids as [|i0 ids'].
    + right. split; [intros ? []|reflexivity].
    + destruct (collect_orders kg (i0 :: ids')) as [|o os] eqn:E.
      * right. split; [|reflexivity]. now apply collect_orders_nil.
      * left. pose proof (py_min_attained os o) as Hin.
        rewrite <- E in Hin. apply collect_orders_In in Hin.
        destruct Hin as (ing_id & ing & Hin & Hget & Heq).
        exists ing_id, ing. now rewrite Heq.
  - intros step Hs. unfold _get_step_order. rewrite Hs. reflexivity.
Qed.

(** On the sample catalog: an unknown id is ignored, the smaller of the
    two resolved orders is taken. *)
Lemma product_order_is_min_resolved_witness :
  product_key Fixture.kg
    (Fixture.product "Mix" ["ceramides"; "unknown"; "vitamin_c"]) = 4
  /\ product_key Fixture.kg (Fixture.product "Mystery" ["unknown"]) = 5
  /\ _get_step_order Fixture.kg
       (Fixture.step_of 1 "Mix" ["ceramides"; "unknown"; "vitamin_c"]) = 4.
Proof.
  split; [reflexivity|]. split; [reflexivity|].
  rewrite (proj2 (proj2 (product_order_is_min_resolved Fixture.kg
             (Fixture.product "Mix" ["ceramides"; "unknown"; "vitamin_c"])))
             (Fixture.step_of 1 "Mix" ["ceramides"; "unknown"; "vitamin_c"])
             eq_refl).
  reflexivity.
Defined.

(** ** Comparing two products *)

(** C9.  [compare_products] checks the compatibility of the two ingredient
    lists put end to end, reports its flag as [can_use_together], and
    picks the recommendation among four distinct fixed messages: the first
    when there is a conflict, else the second when there is a caution,
    else the third when there is a synergy, else the fourth. *)
Theorem compare_products_recommendation (kg : IngredientKnowledgeGraph)
    (product_a product_b : list string) :
  let compatibility := check_compatibility kg (product_a ++ product_b) in
  let result := compare_products kg product_a product_b in
  can_use_together result = c_is_compatible compatibility
  /\ cmp_conflicts result = c_conflicts compatibility
  /\ cmp_cautions result = c_cautions compatibility
  /\ cmp_synergies result = c_synergies compatibility
  /\ (c_conflicts compatibility <> [] ->
      cmp_recommendation result = advice_conflict)
  /\ (c_conflicts compatibility = [] ->
      c_cautions compatibility <> [] ->
      cmp_recommendation result = advice_caution)
  /\ (c_conflicts compatibility = [] ->
      c_cautions compatibility = [] ->
      c_synergies compatibility <> [] ->
      cmp_recommendation result = advice_synergy)
  /\ (c_conflicts compatibility = [] ->
      c_cautions compatibility = [] ->
      c_synergies compatibility = [] ->
      cmp_recommendation result = advice_none)
  /\ NoDup [advice_conflict; advice_caution; advice_synergy; advice_none].
Proof.
  intros compatibility result.
  unfold result, compare_products, _generate_combination_advice; simpl.
  fold compatibility.
  repeat (split; [reflexivity|]).
  split; [|split; [|split; [|split]]].
  - destruct (c_conflicts compatibility); [congruence|reflexivity].
  - intros ->. destruct (c_cautions compatibility); [congruence|reflexivity].
  - intros -> ->.
    destruct (c_synergies compatibility); [congruence|reflexivity].
  - now intros -> -> ->.
  - repeat constructor; simpl; intuition discriminate.
Qed.

(** On the sample catalog, retinol and vitamin C only raise a caution. *)
Lemma compare_products_recommendation_witness :
  cmp_recommendation (compare_products Fixture.kg ["retinol"] ["vitamin_c"])
  = advice_caution
  /\ can_use_together
       (compare_products Fixture.kg ["retinol"] ["vitamin_c"]) = true.
Proof.
  pose proof (compare_products_recommendation
                Fixture.kg ["retinol"] ["vitamin_c"]) as H.
  cbv zeta in H.
  destruct H as (Hflag & _ & _ & _ & _ & Hcaution & _).
  split.
  - apply Hcaution; [reflexivity|discriminate].
  - rewrite Hflag. reflexivity.
Defined.

(** ** The budget of a suggestion *)

(** C10.  The routine suggested for a profile and a time of day is the
    same for any two budgets. *)
Theorem suggest_routine_budget_irrelevant (kg : IngredientKnowledgeGraph)
    (profile : SkinProfile) (time : RoutineTime) (budget budget' : string) :
  suggest_routine kg profile time budget
  = suggest_routine kg profile time budget'.
Proof. reflexivity. Qed.

(** ** The ordering check *)




Section OrderingFacts.

Variable kg : IngredientKnowledgeGraph.

Lemma check_later_pairs (all : list RoutineStep) (i : nat)
    (rest : list RoutineStep) :
  forall j,
    (forall k, (k < List.length rest)%nat ->
               step_at all (j + k) = nth k rest no_step) ->
    check_later kg i (step_at all i) j rest
    = map (issue_at all)
        (filter (out_of_order kg all)
           (map (pair i) (seq j (List.length rest)))).
Proof.
  induction rest as [|later rest IH]; intros j Hnth; [reflexivity|].
  assert (Hj : step_at all j = later).
  { specialize (Hnth 0%nat). rewrite Nat.add_0_r in Hnth.
    apply Hnth. simpl. lia. }
  cbn [check_later List.length seq map filter].
  unfold out_of_order at 1. cbn [fst snd]. rewrite Hj.
  rewrite (IH (S j)).
  - destruct (_get_step_order kg (step_at all i) >? _get_step_order kg later);
      [|reflexivity].
    cbn [app map]. f_equal.
    unfold issue_at. cbn [fst snd]. now rewrite Hj.
  - intros k Hk. specialize (Hnth (S k)).
    rewrite Nat.add_succ_r in Hnth. apply Hnth. simpl. lia.
Qed.

Lemma check_from_pairs (l : list RoutineStep) :
  forall pre,
    check_from kg (List.length pre) l
    = map (issue_at (pre ++ l))
        (filter (out_of_order kg (pre ++ l))
           (flat_map
              (fun i => map (pair i)
                          (seq (S i) (List.length (pre ++ l) - S i)))
              (seq (List.length pre) (List.length l)))).
Proof.
  induction l as [|step rest IH]; intros pre; [reflexivity|].
  cbn [check_from List.length seq flat_map].
  rewrite filter_app, map_app. f_equal.
  - assert (Hi : step_at (pre ++ step :: rest) (List.length pre) = step).
    { unfold step_at. now rewrite nth_middle. }
    rewrite <- Hi at 1. rewrite Nat.add_1_r.
    rewrite check_later_pairs.
    + rewrite length_app. cbn [List.length].
      replace (List.length pre + S (List.length rest)
               - S (List.length pre))%nat
        with (List.length rest) by lia.
      reflexivity.
    + intros k Hk. unfold step_at.
      rewrite app_nth2 by lia.
      replace (S (List.length pre) + k - List.length pre)%nat
        with (S k) by lia.
      reflexivity.
  - specialize (IH (pre ++ [step])%list).
    rewrite <- app_assoc in IH. cbn [app] in IH.
    rewrite length_app in IH. cbn [List.length] in IH.
    rewrite Nat.add_1_r in IH. exact IH.
Qed.

Lemma check_later_sorted (i : nat) (step : RoutineStep)
    (rest : list RoutineStep) :
  Forall (fun s => _get_step_order kg step <= _get_step_order kg s) rest ->
  forall j, check_later kg i step j rest = [].
Proof.
  induction 1 as [|later rest Hle _ IH]; intros j; [reflexivity|].
  cbn [check_later]. rewrite IH.
  destruct (Z.gtb_spec (_get_step_order kg step) (_get_step_order kg later));
    [lia|reflexivity].
Qed.

Lemma check_from_sorted (l : list RoutineStep) :
  StronglySorted Z.le (map (_get_step_order kg) l) ->
  forall i, check_from kg i l = [].
Proof.
  induction l as [|step rest IH]; intros Hs i; [reflexivity|].
  cbn [map] in Hs. apply StronglySorted_inv in Hs. destruct Hs as [Hs Hall].
  cbn [check_from]. rewrite IH by assumption.
  rewrite check_later_sorted; [reflexivity|].
  rewrite Forall_map in Hall. exact Hall.
Qed.

End OrderingFacts.



(** ** Sorting the products *)

Section SortedFacts.

Context {A : Type} (key : A -> Z).

Lemma insert_by_key_perm (x : A) (l : list A) :
  Permutation (x :: l) (insert_by_key key x l).
Proof.
  induction l as [|y l IH]; simpl; [reflexivity|].
  destruct (key x <=? key y); [reflexivity|].
  rewrite perm_swap. now apply perm_skip.
Qed.

Lemma sorted_perm (l : list A) : Permutation l (sorted key l).
Proof.
  induction l as [|x l IH]; simpl; [constructor|].
  rewrite <- insert_by_key_perm. now apply perm_skip.
Qed.

Lemma insert_by_key_sorted (x : A) (l : list A) :
  StronglySorted (fun a b => key a <= key b) l ->
  StronglySorted (fun a b => key a <= key b) (insert_by_key key x l).
Proof.
  induction 1 as [|y l Hs IH Hall]; simpl.
  - repeat constructor.
  - destruct (Z.leb_spec (key x) (key y)) as [Hle|Hgt].
    + constructor; [now constructor|].
      constructor; [assumption|].
      eapply Forall_impl; [|exact Hall]. simpl; intros; lia.
    + constructor; [assumption|].
      apply (Permutation_Forall (insert_by_key_perm x l)).
      constructor; [lia|assumption].
Qed.

Lemma sorted_sorted (l : list A) :
  StronglySorted (fun a b => key a <= key b) (sorted key l).
Proof.
  induction l as [|x l IH]; simpl; [constructor|].
  now apply insert_by_key_sorted.
Qed.

(** An inserted element only passes elements of a smaller key. *)
Lemma insert_by_key_filter (k : Z) (x : A) (l : list A) :
  filter (fun a => key a =? k) (insert_by_key key x l)
  = filter (fun a => key a =? k) (x :: l).
Proof.
  induction l as [|y l IH]; [reflexivity|].
  cbn [insert_by_key].
  destruct (Z.leb_spec (key x) (key y)) as [Hle|Hgt]; [reflexivity|].
  cbn [filter] in *. rewrite IH.
  destruct (Z.eqb_spec (key x) k), (Z.eqb_spec (key y) k);
    try reflexivity; lia.
Qed.

Lemma sorted_stable (k : Z) (l : list A) :
  filter (fun a => key a =? k) (sorted key l)
  = filter (fun a => key a =? k) l.
Proof.
  induction l as [|x l IH]; [reflexivity|].
  cbn [sorted]. rewrite insert_by_key_filter.
  cbn [filter]. now rewrite IH.
Qed.

End SortedFacts.

(** ** Facts on [enumerate] *)

Lemma nth_error_combine_seq {A : Type} (l : list A) :
  forall start k,
    nth_error (combine (seq start (List.length l)) l) k
    = option_map (pair (start + k)%nat) (nth_error l k).
Proof.
  induction l as [|x l IH]; intros start k.
  - now destruct k.
  - destruct k as [|k]; cbn [List.length seq combine nth_error option_map].
    + now rewrite Nat.add_0_r.
    + rewrite IH. now rewrite Nat.add_succ_r.
Qed.

Lemma nth_error_enumerate {A : Type} (l : list A) (k : nat) :
  nth_error (enumerate l) k = option_map (pair k) (nth_error l k).
Proof. unfold enumerate. now rewrite nth_error_combine_seq. Qed.

Lemma map_fst_enumerate {A : Type} (l : list A) :
  map fst (enumerate l) = seq 0 (List.length l).
Proof.
  unfold enumerate. generalize 0%nat.
  induction l as [|x l IH]; intros start; [reflexivity|].
  cbn [List.length seq combine map fst]. now rewrite IH.
Qed.

Lemma map_snd_enumerate {A : Type} (l : list A) :
  map snd (enumerate l) = l.
Proof.
  unfold enumerate. generalize 0%nat.
  induction l as [|x l IH]; intros start; [reflexivity|].
  cbn [List.length seq combine map snd]. now rewrite IH.
Qed.

Section BuildFacts.

Variable kg : IngredientKnowledgeGraph.

Lemma build_step_product (time : RoutineTime) (ps : list Product)
    (i : nat) (p : Product) :
  step_product (build_step kg time ps i p) = p.
Proof.
  unfold build_step.
  destruct (_check_time_appropriateness kg (p_ingredients p) time).
  now destruct p.
Qed.

Lemma build_step_order (time : RoutineTime) (ps : list Product)
    (i : nat) (p : Product) :
  order (build_step kg time ps i p) = Z.of_nat (S i).
Proof.
  unfold build_step.
  destruct (_check_time_appropriateness kg (p_ingredients p) time).
  cbn [order]. lia.
Qed.

Lemma build_routine_products (products : list Product) (time : RoutineTime)
    (profile : option SkinProfile) :
  map step_product (steps (fst (build_routine kg products time profile)))
  = sorted (product_key kg) products.
Proof.
  cbn [build_routine fst steps]. rewrite map_map.
  etransitivity; [|apply map_snd_enumerate].
  apply map_ext. intros [i p]. apply build_step_product.
Qed.

Lemma build_routine_orders (products : list Product) (time : RoutineTime)
    (profile : option SkinProfile) :
  map order (steps (fst (build_routine kg products time profile)))
  = map Z.of_nat (seq 1 (List.length products)).
Proof.
  cbn [build_routine fst steps]. rewrite map_map.
  rewrite (Permutation_length (sorted_perm (product_key kg) products)).
  rewrite <- seq_shift, map_map.
  rewrite <- (map_fst_enumerate (sorted (product_key kg) products)).
  rewrite map_map. apply map_ext. intros [i p]. apply build_step_order.
Qed.

Lemma build_routine_nth (products : list Product) (time : RoutineTime)
    (profile : option SkinProfile) (k : nat) :
  nth_error (steps (fst (build_routine kg products time profile))) k
  = option_map
      (build_step kg time (sorted (product_key kg) products) k)
      (nth_error (sorted (product_key kg) products) k).
Proof.
  cbn [build_routine fst steps].
  rewrite nth_error_map, nth_error_enumerate.
  now destruct (nth_error (sorted (product_key kg) products) k).
Qed.

End BuildFacts.

Lemma StronglySorted_nth_error {A : Type} (R : A -> A -> Prop)
    (l : list A) :
  StronglySorted R l ->
  forall i j a b,
    (i < j)%nat -> nth_error l i = Some a -> nth_error l j = Some b ->
    R a b.
Proof.
  induction 1 as [|x l Hs IH Hall]; intros i j a b Hij Hi Hj.
  - now destruct i.
  - destruct j as [|j]; [lia|]. cbn [nth_error] in Hj.
    destruct i as [|i]; cbn [nth_error] in Hi.
    + injection Hi as <-. rewrite Forall_forall in Hall.
      apply Hall. eapply nth_error_In. exact Hj.
    + apply (IH i j); [lia|assumption|assumption].
Qed.

Section EffectiveOrderFacts.

Variable kg : IngredientKnowledgeGraph.

Lemma product_key_effective (p : Product) :
  effective_order_is kg p (product_key kg p).
Proof.
  unfold effective_order_is, product_key, _get_product_order.
  destruct p as [nm ids]; cbn [p_ingredients]. split.
  - intros ing_id ing Hin E.
    assert (Ho : In (application_order ing) (collect_orders kg ids)).
    { apply collect_orders_In. now exists ing_id, ing. }
    destruct ids as [|i0 ids']; [contradiction|].
    destruct (collect_orders kg (i0 :: ids')) as [|o os]; [contradiction|].
    now apply py_min_lower_bound.
  - destruct ids as [|i0 ids'].
    + right. split; [intros ? []|reflexivity].
    + destruct (collect_orders kg (i0 :: ids')) as [|o os] eqn:E.
      * right. split; [|reflexivity]. now apply collect_orders_nil.
      * left. pose proof (py_min_attained os o) as Hin.
        rewrite <- E in Hin. apply collect_orders_In in Hin.
        destruct Hin as (ing_id & ing & Hin & Hget & Heq).
        exists ing_id, ing. now rewrite Heq.
Qed.

Lemma effective_order_unique (p : Product) (o o' : Z) :
  effective_order_is kg p o -> effective_order_is kg p o' -> o = o'.
Proof.
  intros [Hlow Hatt] [Hlow' Hatt'].
  destruct Hatt as [(i & ing & Hin & Hget & ->)|[Hnone ->]];
    destruct Hatt' as [(i' & ing' & Hin' & Hget' & ->)|[Hnone' ->]].
  - apply Z.le_antisymm; [now apply (Hlow i')|now apply (Hlow' i)].
  - rewrite (Hnone' i Hin) in Hget. discriminate.
  - rewrite (Hnone i' Hin') in Hget'. discriminate.
  - reflexivity.
Qed.

Lemma product_key_unique (p : Product) (o : Z) :
  effective_order_is kg p o <-> product_key kg p = o.
Proof.
  split.
  - intros H. apply (effective_order_unique p); [|assumption].
    apply product_key_effective.
  - intros <-. apply product_key_effective.
Qed.

End EffectiveOrderFacts.

(** C4.  [build_routine] places the products in ascending effective
    application order, by a stable sort: the products of the steps are a
    rearrangement of the given ones; the key they are sorted by is the
    effective order of a product, the least application order of its
    resolving ingredients or 5; a product placed before another has an
    effective order that is not larger; the products of each effective
    order come as they came in the input; the steps are numbered
    1, 2, ..., n. *)
Theorem build_routine_stable_sort (kg : IngredientKnowledgeGraph)
    (products : list Product) (time : RoutineTime)
    (profile : option SkinProfile) :
  let built := steps (fst (build_routine kg products time profile)) in
  let placed := map step_product built in
  Permutation products placed
  /\ (forall p, effective_order_is kg p (product_key kg p))
  /\ StronglySorted (fun p q => product_key kg p <= product_key kg q) placed
  /\ (forall i j p q op oq,
         (i < j)%nat ->
         nth_error placed i = Some p -> nth_error placed j = Some q ->
         effective_order_is kg p op -> effective_order_is kg q oq ->
         op <= oq)
  /\ (forall k,
         filter (fun p => product_key kg p =? k) placed
         = filter (fun p => product_key kg p =? k) products)
  /\ (forall o (same_order : Product -> bool),
         (forall p, same_order p = true <-> effective_order_is kg p o) ->
         filter same_order placed = filter same_order products)
  /\ map order built = map Z.of_nat (seq 1 (List.length products)).
Proof.
  intros built placed. unfold placed, built.
  rewrite build_routine_products.
  split; [apply sorted_perm|].
  split; [apply product_key_effective|].
  split; [apply sorted_sorted|].
  split.
  { intros i j p q op oq Hij Hp Hq Hop Hoq.
    apply product_key_unique in Hop. apply product_key_unique in Hoq.
    subst op oq.
    exact (StronglySorted_nth_error _ _
             (sorted_sorted (product_key kg) products) i j p q Hij Hp Hq). }
  split; [intros k; apply sorted_stable|].
  split; [|apply build_routine_orders].
  intros o same_order Hsame.
  assert (Hext : forall p, same_order p = (product_key kg p =? o)).
  { intros p. destruct (same_order p) eqn:E.
    - apply Hsame, product_key_unique in E. symmetry. now apply Z.eqb_eq.
    - destruct (Z.eqb_spec (product_key kg p) o) as [Heq|]; [|reflexivity].
      apply product_key_unique, Hsame in Heq. congruence. }
  rewrite !(filter_ext _ _ Hext). apply sorted_stable.
Qed.

(** On the sample catalog: the cream of order 8 given first goes last,
    the serum of order 4 given last goes first, and the three products
    of order 5 (retinol, no ingredient, benzoyl peroxide) stay between
    them in the order given. *)
Lemma build_routine_stable_sort_witness :
  let products :=
    [Fixture.product "Night cream" ["ceramides"];
     Fixture.product "Retinol serum" ["retinol"];
     Fixture.product "Mystery" [];
     Fixture.product "BP" ["benzoyl_peroxide"];
     Fixture.product "C serum" ["vitamin_c"]] in
  let built := steps (fst (build_routine Fixture.kg products PM None)) in
  map product_name built
  = ["C serum"; "Retinol serum"; "Mystery"; "BP"; "Night cream"]
  /\ map order built = [1; 2; 3; 4; 5]
  /\ filter (fun p => product_key Fixture.kg p =? 5) (map step_product built)
     = [Fixture.product "Retinol serum" ["retinol"];
        Fixture.product "Mystery" [];
        Fixture.product "BP" ["benzoyl_peroxide"]]
  /\ 4 <= 8.
Proof.
  intros products built.
  destruct (build_routine_stable_sort Fixture.kg products PM None)
    as (_ & Heff & _ & Hpairs & Hstable & _ & Horders).
  split; [reflexivity|]. split; [exact Horders|].
  split; [exact (Hstable 5)|].
  apply (Hpairs 0%nat 4%nat
           (Fixture.product "C serum" ["vitamin_c"])
           (Fixture.product "Night cream" ["ceramides"]) 4 8).
  - lia.
  - reflexivity.
  - reflexivity.
  - apply (Heff (Fixture.product "C serum" ["vitamin_c"])).
  - apply (Heff (Fixture.product "Night cream" ["ceramides"])).
Defined.

(** On the sample catalog: the two products of key 5 and the product
    without ingredients keep their input order behind the product of
    key 4. *)
Example build_routine_stable_sort_sample :
  map product_name
      (steps (fst (build_routine Fixture.kg
                     [Fixture.product "Night cream" ["ceramides"];
                      Fixture.product "Retinol serum" ["retinol"];
                      Fixture.product "Mystery" [];
                      Fixture.product "BP" ["benzoyl_peroxide"];
                      Fixture.product "C serum" ["vitamin_c"]]
                     PM None)))
  = ["C serum"; "Retinol serum"; "Mystery"; "BP"; "Night cream"].
Proof. reflexivity. Qed.

(** ** Wait times *)

Section WaitFacts.

Variable kg : IngredientKnowledgeGraph.

Lemma update_max_wait_spec (m : Z) (a b : string) :
  0 <= m ->
  m <= update_max_wait kg m a b
  /\ (forall w, carries_wait kg a b w -> w <= update_max_wait kg m a b)
  /\ (update_max_wait kg m a b = m
      \/ carries_wait kg a b (update_max_wait kg m a b)).
Proof.
  intros Hm. unfold update_max_wait, carries_wait.
  destruct (get_interaction kg a b) as [i|] eqn:Ei.
  - destruct (wait_minutes i) as [w|] eqn:Ew.
    + destruct (Z.eqb_spec w 0) as [->|Hw].
      * split; [lia|]. split; [|now left].
        intros w' (i' & Hi' & Hw'). congruence.
      * split; [lia|]. split.
        -- intros w' (i' & Hi' & Hw').
           assert (w' = w) by congruence. lia.
        -- destruct (Z.max_spec m w) as [[_ ->]|[_ ->]].
           ++ right. now exists i.
           ++ now left.
    + split; [lia|]. split; [|now left].
      intros w' (i' & Hi' & Hw'). congruence.
  - split; [lia|]. split; [|now left].
    intros w' (i' & Hi' & Hw'). congruence.
Qed.

Lemma inner_wait_spec (a : string) (nxt : list string) :
  forall m,
    0 <= m ->
    let r := fold_left (fun m b => update_max_wait kg m a b) nxt m in
    m <= r
    /\ (forall b w, In b nxt -> carries_wait kg a b w -> w <= r)
    /\ (r = m \/ exists b, In b nxt /\ carries_wait kg a b r).
Proof.
  induction nxt as [|b nxt IH]; intros m Hm; cbn [fold_left].
  - split; [lia|]. split; [intros ? ? []|now left].
  - destruct (update_max_wait_spec m a b Hm) as (Hle & Hub & Hatt).
    destruct (IH (update_max_wait kg m a b) ltac:(lia))
      as (Hle' & Hub' & Hatt').
    cbv zeta in *.
    set (r := fold_left _ nxt _) in *.
    split; [lia|]. split.
    + intros b' w [<-|Hin] Hc.
      * specialize (Hub w Hc). lia.
      * now apply (Hub' b').
    + destruct Hatt' as [Hr|(b' & Hin & Hc)].
      * destruct Hatt as [Hu|Hc].
        -- left. congruence.
        -- right. exists b. split; [now left|]. now rewrite Hr.
      * right. exists b'. split; [now right|assumption].
Qed.

Lemma outer_wait_spec (cur nxt : list string) :
  forall m,
    0 <= m ->
    let r :=
      fold_left
        (fun m a => fold_left (fun m b => update_max_wait kg m a b) nxt m)
        cur m in
    m <= r
    /\ (forall a b w, In a cur -> In b nxt -> carries_wait kg a b w -> w <= r)
    /\ (r = m \/ exists a b, In a cur /\ In b nxt /\ carries_wait kg a b r).
Proof.
  induction cur as [|a cur IH]; intros m Hm; cbn [fold_left].
  - split; [lia|]. split; [intros ? ? ? []|now left].
  - destruct (inner_wait_spec a nxt m Hm) as (Hle & Hub & Hatt).
    cbv zeta in *.
    set (m' := fold_left (fun m b => update_max_wait kg m a b) nxt m) in *.
    destruct (IH m' ltac:(lia)) as (Hle' & Hub' & Hatt').
    cbv zeta in *.
    set (r := fold_left _ cur m') in *.
    split; [lia|]. split.
    + intros a' b w [<-|Hin] Hb Hc.
      * specialize (Hub b w Hb Hc). lia.
      * now apply (Hub' a' b).
    + destruct Hatt' as [Hr|(a' & b & Hin & Hb & Hc)].
      * destruct Hatt as [Hm'|(b & Hb & Hc)].
        -- left. congruence.
        -- right. exists a, b. split; [now left|]. split; [assumption|].
           now rewrite Hr.
      * right. exists a', b. split; [now right|]. now split.
Qed.

Lemma calculate_wait_time_spec (cur nxt : list string) :
  0 <= _calculate_wait_time kg cur nxt
  /\ (forall a b w,
         In a cur -> In b nxt -> carries_wait kg a b w ->
         w <= _calculate_wait_time kg cur nxt)
  /\ (_calculate_wait_time kg cur nxt = 0
      \/ exists a b,
           In a cur /\ In b nxt
           /\ carries_wait kg a b (_calculate_wait_time kg cur nxt)).
Proof. apply (outer_wait_spec cur nxt 0). lia. Qed.

Lemma calculate_wait_time_nil (cur : list string) :
  _calculate_wait_time kg cur [] = 0.
Proof.
  destruct (calculate_wait_time_spec cur []) as (_ & _ & [H|H]);
    [assumption|].
  now destruct H as (? & ? & _ & [] & _).
Qed.

Lemma build_step_ingredients (time : RoutineTime) (ps : list Product)
    (i : nat) (p : Product) :
  ingredients (build_step kg time ps i p) = p_ingredients p.
Proof.
  unfold build_step.
  now destruct (_check_time_appropriateness kg (p_ingredients p) time).
Qed.

Lemma build_step_wait_after (time : RoutineTime) (ps : list Product)
    (i : nat) (p : Product) :
  wait_after (build_step kg time ps i p)
  = _calculate_wait_time kg (p_ingredients p)
      match nth_error ps (S i) with
      | Some q => p_ingredients q
      | None => []
      end.
Proof.
  unfold build_step.
  destruct (_check_time_appropriateness kg (p_ingredients p) time).
  cbn [wait_after]. rewrite Nat.add_1_r.
  destruct (Nat.ltb_spec (S i) (List.length ps)) as [Hlt|Hge];
    [reflexivity|].
  apply nth_error_None in Hge. now rewrite Hge.
Qed.

End WaitFacts.

(** C5.  In a built routine the wait after a step is the largest wait
    time carried by the interaction records of the pairs made of an
    ingredient of the step and an ingredient of the next step: it bounds
    all of them and, unless it is 0, it is one of them (so it is one of
    them whenever some pair carries a wait and no wait is negative); it
    is 0 when no such pair carries a wait time, and after the last
    step. *)
Theorem build_routine_wait_after (kg : IngredientKnowledgeGraph)
    (products : list Product) (time : RoutineTime)
    (profile : option SkinProfile) (k : nat) (step : RoutineStep) :
  let built := steps (fst (build_routine kg products time profile)) in
  nth_error built k = Some step ->
  0 <= wait_after step
  /\ (forall a b w,
         In a (ingredients step) -> In b (next_ingredients built k) ->
         carries_wait kg a b w -> w <= wait_after step)
  /\ (wait_after step = 0
      \/ exists a b,
           In a (ingredients step) /\ In b (next_ingredients built k)
           /\ carries_wait kg a b (wait_after step))
  /\ ((forall a b w,
          In a (ingredients step) -> In b (next_ingredients built k) ->
          carries_wait kg a b w -> w = 0) ->
      wait_after step = 0)
  /\ ((forall a b w,
          In a (ingredients step) -> In b (next_ingredients built k) ->
          carries_wait kg a b w -> 0 <= w) ->
      forall a b w,
        In a (ingredients step) -> In b (next_ingredients built k) ->
        carries_wait kg a b w ->
        exists a' b',
          In a' (ingredients step) /\ In b' (next_ingredients built k)
          /\ carries_wait kg a' b' (wait_after step))
  /\ (nth_error built (S k) = None -> wait_after step = 0).
Proof.
  intros built Hk. unfold next_ingredients, built in *.
  rewrite build_routine_nth in Hk. rewrite build_routine_nth.
  set (ps := sorted (product_key kg) products) in *.
  destruct (nth_error ps k) as [p|] eqn:Ep; [|discriminate].
  cbn [option_map] in Hk. injection Hk as <-.
  rewrite build_step_wait_after, build_step_ingredients.
  assert (Hnext :
    match option_map (build_step kg time ps (S k)) (nth_error ps (S k)) with
    | Some next_step => ingredients next_step
    | None => []
    end
    = match nth_error ps (S k) with
      | Some q => p_ingredients q
      | None => []
      end).
  { destruct (nth_error ps (S k)); [apply build_step_ingredients|reflexivity]. }
  rewrite Hnext.
  set (nxt := match nth_error ps (S k) with
              | Some q => p_ingredients q
              | None => []
              end) in *.
  destruct (calculate_wait_time_spec kg (p_ingredients p) nxt)
    as (Hpos & Hub & Hatt).
  split; [assumption|]. split; [assumption|]. split; [assumption|].
  split; [|split].
  - intros Hzero. destruct Hatt as [H|(a & b & Ha & Hb & Hc)]; [assumption|].
    now apply (Hzero a b).
  - intros Hnonneg a b w Ha Hb Hc.
    destruct Hatt as [H|(a' & b' & Ha' & Hb' & Hc')].
    + exists a, b. split; [assumption|]. split; [assumption|].
      rewrite H. specialize (Hub a b w Ha Hb Hc).
      specialize (Hnonneg a b w Ha Hb Hc).
      now replace 0 with w by lia.
    + now exists a', b'.
  - intros Hlast. unfold nxt.
    destruct (nth_error ps (S k)); [discriminate|].
    apply calculate_wait_time_nil.
Qed.

(** On the sample catalog: a serum with retinol and niacinamide is
    followed by a vitamin C serum; the wait after it is 20, the larger of
    the waits 20 and 10 of the two records, and there is no wait after
    the last step. *)
Lemma build_routine_wait_after_witness :
  let products :=
    [Fixture.product "Night serum" ["retinol"; "niacinamide"];
     Fixture.product "C serum" ["vitamin_c"; "unknown"]] in
  let built := steps (fst (build_routine Fixture.kg products PM None)) in
  let first :=
    {| order := 1; product_name := "Night serum";
       ingredients := ["retinol"; "niacinamide"];
       wait_after := 20; notes := "" |} in
  nth_error built 0 = Some first
  /\ map wait_after built = [20; 0]
  /\ carries_wait Fixture.kg "niacinamide" "vitamin_c" 10
  /\ 10 <= wait_after first.
Proof.
  intros products built first.
  assert (Hfirst : nth_error built 0 = Some first) by reflexivity.
  assert (Hc : carries_wait Fixture.kg "niacinamide" "vitamin_c" 10).
  { eexists. split; reflexivity. }
  split; [exact Hfirst|]. split; [reflexivity|]. split; [exact Hc|].
  destruct (build_routine_wait_after
              Fixture.kg products PM None 0 first Hfirst) as (_ & Hub & _).
  apply (Hub "niacinamide" "vitamin_c"); [| |exact Hc].
  - simpl. right; now left.
  - simpl. now left.
Defined.

(** ** Missing essentials *)

Section EssentialsFacts.

Variable kg : IngredientKnowledgeGraph.

Lemma any_category_in_true (cats ids : list string) :
  any_category_in kg cats ids = true <->
  exists ing_id ing,
    In ing_id ids /\ get_ingredient kg ing_id = Some ing
    /\ In (category ing) cats.
Proof.
  unfold any_category_in. rewrite existsb_exists. split.
  - intros (ing_id & Hin & H).
    destruct (get_ingredient kg ing_id) as [ing|] eqn:E; [|discriminate].
    apply existsb_exists in H. destruct H as (c & Hc & Heq).
    apply String.eqb_eq in Heq. exists ing_id, ing. now rewrite Heq.
  - intros (ing_id & ing & Hin & E & Hc).
    exists ing_id. split; [assumption|]. rewrite E.
    apply existsb_exists. exists (category ing). split; [assumption|].
    apply String.eqb_refl.
Qed.

Lemma missing_spf_In (routine : Routine) (profile : option SkinProfile) :
  time routine = AM ->
  In (missing_spf)
     (missing_essentials (analyze_routine kg routine profile))
  <-> ~ has_category kg "sunscreen" routine.
Proof.
  intros Ham. cbn [analyze_routine missing_essentials].
  unfold _check_missing_essentials. rewrite Ham.
  assert (Hcat :
    any_category_in kg ["sunscreen"] (get_all_ingredients routine) = true
    <-> has_category kg "sunscreen" routine).
  { rewrite any_category_in_true. unfold has_category.
    split; intros (ing_id & ing & Hin & E & Hc); exists ing_id, ing.
    - destruct Hc as [<-|[]]. auto.
    - rewrite Hc. simpl. auto. }
  destruct (any_category_in kg ["sunscreen"] (get_all_ingredients routine)).
  - cbn [negb app]. split.
    + intros Hin.
      destruct (negb _) in Hin; [|contradiction].
      destruct Hin as [Hin|[]]. discriminate Hin.
    + intros Hno. exfalso. apply Hno. now apply Hcat.
  - cbn [negb app]. split.
    + intros _ Hhas. apply Hcat in Hhas. discriminate.
    + intros _. now left.
Qed.

End EssentialsFacts.

(** The entry of C6 spelt with a dash is not reported: a morning routine
    of the sample catalog has no sunscreen ingredient, and the entry
    written with a dash is not among its missing essentials. *)
Lemma missing_sunscreen_dash_absent :
  let routine :=
    {| time := AM;
       steps := [Fixture.step_of 1 "C serum" ["vitamin_c"]] |} in
  any_category_in Fixture.kg ["sunscreen"] (get_all_ingredients routine)
  = false
  /\ ~ In missing_spf_dash
        (missing_essentials (analyze_routine Fixture.kg routine None)).
Proof.
  intros routine. split; [reflexivity|].
  vm_compute. intros [H|[H|[]]]; discriminate H.
Qed.

(** C6.  For a morning routine the entry
    ["Sunscreen (SPF) - essential for morning routine"] is among the
    missing essentials exactly when no ingredient of the routine resolves
    to an ingredient of category sunscreen; after a step with such an
    ingredient is put anywhere in the routine the entry is absent. *)
Theorem missing_sunscreen_iff (kg : IngredientKnowledgeGraph)
    (routine : Routine) (profile : option SkinProfile) :
  time routine = AM ->
  (In missing_spf (missing_essentials (analyze_routine kg routine profile))
   <-> ~ has_category kg "sunscreen" routine)
  /\ (forall before after step ing_id ing,
         steps routine = (before ++ after)%list ->
         In ing_id (ingredients step) ->
         get_ingredient kg ing_id = Some ing ->
         category ing = "sunscreen" ->
         ~ In missing_spf
             (missing_essentials
                (analyze_routine kg
                   {| time := AM; steps := before ++ step :: after |}
                   profile))).
Proof.
  intros Ham. split; [now apply missing_spf_In|].
  intros before after step ing_id ing _ Hin Hget Hcat Hmissing.
  apply missing_spf_In in Hmissing; [|reflexivity].
  apply Hmissing. exists ing_id, ing.
  split; [|now split].
  unfold get_all_ingredients. cbn [steps].
  rewrite flat_map_app. apply in_or_app. right.
  cbn [flat_map]. apply in_or_app. now left.
Qed.

(** On the sample catalog: the entry is reported for a morning routine
    made of a vitamin C serum, and it is gone once a sunscreen step is
    added. *)
Lemma missing_sunscreen_iff_witness :
  let routine :=
    {| time := AM;
       steps := [Fixture.step_of 1 "C serum" ["vitamin_c"]] |} in
  let sunscreen := Fixture.step_of 2 "Sunscreen" ["spf"] in
  In missing_spf
     (missing_essentials (analyze_routine Fixture.kg routine None))
  /\ ~ In missing_spf
        (missing_essentials
           (analyze_routine Fixture.kg
              {| time := AM; steps := steps routine ++ [sunscreen] |}
              None)).
Proof.
  intros routine sunscreen.
  destruct (missing_sunscreen_iff Fixture.kg routine None eq_refl)
    as [Hiff Hadd].
  split.
  - apply Hiff. intros (ing_id & ing & Hin & Hget & Hcat).
    destruct Hin as [<-|[]]. vm_compute in Hget.
    injection Hget as <-. discriminate Hcat.
  - apply (Hadd (steps routine) [] sunscreen "spf" Fixture.spf).
    + now rewrite app_nil_r.
    + now left.
    + reflexivity.
    + reflexivity.
Defined.

(** ** Time-of-day notes *)

Lemma TimeOfDay_eqb_eq (a b : TimeOfDay) :
  TimeOfDay_eqb a b = true <-> a = b.
Proof. destruct a, b; simpl; split; congruence. Qed.

Lemma time_note_nonempty (time : RoutineTime) (ing : Ingredient) :
  time_note time ing <> "".
Proof.
  unfold time_note. destruct time; destruct (name ing); discriminate.
Qed.

Section TimeFacts.

Variable kg : IngredientKnowledgeGraph.

Lemma check_time_appropriateness_spec (time : RoutineTime)
    (ids : list string) :
  match _check_time_appropriateness kg ids time with
  | (true, note) => note = "" /\ ~ has_restricted kg time ids
  | (false, note) =>
      exists ing_id ing,
        In ing_id ids /\ get_ingredient kg ing_id = Some ing
        /\ restricted_to_other time ing /\ note = time_note time ing
  end.
Proof.
  induction ids as [|ing_id rest IH]; cbn [_check_time_appropriateness].
  - split; [reflexivity|]. now intros (? & ? & [] & _).
  - assert (Hrest :
      (forall ing, get_ingredient kg ing_id = Some ing ->
                   ~ restricted_to_other time ing) ->
      match _check_time_appropriateness kg rest time with
      | (true, note) =>
          note = "" /\ ~ has_restricted kg time (ing_id :: rest)
      | (false, note) =>
          exists ing_id' ing,
            In ing_id' (ing_id :: rest)
            /\ get_ingredient kg ing_id' = Some ing
            /\ restricted_to_other time ing /\ note = time_note time ing
      end).
    { intros Hhead.
      destruct (_check_time_appropriateness kg rest time) as [[|] note].
      - destruct IH as [Hnote Hno]. split; [assumption|].
        intros (i & ing & [<-|Hin] & Hget & Hr).
        + now apply (Hhead ing).
        + apply Hno. now exists i, ing.
      - destruct IH as (i & ing & Hin & Hget & Hr & Hnote).
        exists i, ing. split; [now right|]. now repeat split. }
    destruct (get_ingredient kg ing_id) as [ingredient|] eqn:E.
    + destruct time.
      * destruct (TimeOfDay_eqb (time_of_day ingredient) PM_ONLY) eqn:Et.
        -- apply TimeOfDay_eqb_eq in Et.
           exists ing_id, ingredient. split; [now left|]. now repeat split.
        -- apply Hrest. intros ing [= <-] Hr. simpl in Hr.
           apply TimeOfDay_eqb_eq in Hr. congruence.
      * destruct (TimeOfDay_eqb (time_of_day ingredient) AM_ONLY) eqn:Et.
        -- apply TimeOfDay_eqb_eq in Et.
           exists ing_id, ingredient. split; [now left|]. now repeat split.
        -- apply Hrest. intros ing [= <-] Hr. simpl in Hr.
           apply TimeOfDay_eqb_eq in Hr. congruence.
    + apply Hrest. intros ing [=].
Qed.

Lemma build_step_notes (time : RoutineTime) (ps : list Product)
    (i : nat) (p : Product) :
  (has_restricted kg time (p_ingredients p) ->
   exists ing_id ing,
     In ing_id (p_ingredients p) /\ get_ingredient kg ing_id = Some ing
     /\ restricted_to_other time ing
     /\ notes (build_step kg time ps i p) = time_note time ing)
  /\ (~ has_restricted kg time (p_ingredients p) ->
      notes (build_step kg time ps i p) = "").
Proof.
  pose proof (check_time_appropriateness_spec time (p_ingredients p)) as H.
  unfold build_step.
  destruct (_check_time_appropriateness kg (p_ingredients p) time)
    as [[|] note]; cbn [notes negb].
  - destruct H as [_ Hno]. split; [intros Hr; contradiction|reflexivity].
  - split; [intros _; exact H|].
    intros Hno. exfalso. apply Hno.
    destruct H as (ing_id & ing & Hin & Hget & Hr & _).
    now exists ing_id, ing.
Qed.

End TimeFacts.

(** C7.  In a built routine a step that holds an ingredient restricted to
    the other time of day (evening-only in a morning build, morning-only
    in an evening build) has a non-empty note, the note about such an
    ingredient of the step, and a step that holds none has an empty
    note.  The notes do not move the steps: the products and the
    positions of the steps are the same whatever the time of day. *)
Theorem build_routine_time_notes (kg : IngredientKnowledgeGraph)
    (products : list Product) (time : RoutineTime)
    (profile : option SkinProfile) :
  let built := steps (fst (build_routine kg products time profile)) in
  (forall step,
      In step built ->
      (has_restricted kg time (ingredients step) ->
       notes step <> ""
       /\ exists ing_id ing,
            In ing_id (ingredients step)
            /\ get_ingredient kg ing_id = Some ing
            /\ restricted_to_other time ing
            /\ notes step = time_note time ing)
      /\ (~ has_restricted kg time (ingredients step) -> notes step = ""))
  /\ map step_product built = sorted (product_key kg) products
  /\ (forall time' profile',
         let built' :=
           steps (fst (build_routine kg products time' profile')) in
         map step_product built' = map step_product built
         /\ map order built' = map order built).
Proof.
  intros built. split; [|split].
  - intros step Hin. unfold built in Hin.
    cbn [build_routine fst steps] in Hin.
    apply in_map_iff in Hin. destruct Hin as ([i p] & <- & _).
    rewrite build_step_ingredients.
    destruct (build_step_notes kg time
                (sorted (product_key kg) products) i p) as [Hyes Hno].
    split; [|exact Hno].
    intros Hr. destruct (Hyes Hr) as (ing_id & ing & H1 & H2 & H3 & H4).
    split.
    + rewrite H4. apply time_note_nonempty.
    + now exists ing_id, ing.
  - apply build_routine_products.
  - intros time' profile' built'. unfold built', built.
    rewrite !build_routine_products, !build_routine_orders. now split.
Qed.

(** On the sample catalog: in a morning build the retinol serum is noted
    and still comes in its sorted place, after the vitamin C serum. *)
Lemma build_routine_time_notes_witness :
  let products :=
    [Fixture.product "Retinol serum" ["retinol"];
     Fixture.product "C serum" ["vitamin_c"]] in
  let built := steps (fst (build_routine Fixture.kg products AM None)) in
  let noted :=
    {| order := 2; product_name := "Retinol serum";
       ingredients := ["retinol"]; wait_after := 0;
       notes := "Retinol should only be used at night" |} in
  In noted built
  /\ notes noted <> ""
  /\ map product_name built = ["C serum"; "Retinol serum"].
Proof.
  intros products built noted.
  assert (Hin : In noted built) by (right; now left).
  split; [exact Hin|]. split; [|reflexivity].
  destruct (build_routine_time_notes Fixture.kg products AM None)
    as [Hnotes _].
  destruct (Hnotes noted Hin) as [Hyes _].
  apply Hyes. exists "retinol", Fixture.retinol.
  split; [now left|]. split; reflexivity.
Defined.

(** ** Suggested routines *)

Lemma In_firstn {A : Type} (n : nat) (l : list A) (x : A) :
  In x (firstn n l) -> In x l.
Proof.
  intros Hin. rewrite <- (firstn_skipn n l). apply in_or_app. now left.
Qed.

Lemma last_app_cons {A : Type} (l tl : list A) (x d : A) :
  last (l ++ x :: tl) d = last (x :: tl) d.
Proof.
  induction l as [|y l IH]; [reflexivity|].
  rewrite <- IH. now destruct l.
Qed.

Lemma add_treatments_select (profile : SkinProfile)
    (candidates : list Ingredient) :
  forall added,
    add_treatments profile candidates added
    = map (treatment_step profile) (select_treatments candidates added).
Proof.
  induction candidates as [|ing rest IH]; intros added; [reflexivity|].
  cbn [add_treatments select_treatments].
  destruct (negb (existsb (String.eqb (category ing)) added)); cbn [map];
    now rewrite IH.
Qed.

Lemma select_treatments_fresh (candidates : list Ingredient) :
  forall added ing,
    In ing (select_treatments candidates added) ->
    In ing candidates /\ ~ In (category ing) added.
Proof.
  induction candidates as [|c rest IH]; intros added ing Hin; [contradiction|].
  cbn [select_treatments] in Hin.
  destruct (existsb (String.eqb (category c)) added) eqn:E; cbn [negb] in Hin.
  - destruct (IH _ _ Hin). split; [now right|assumption].
  - destruct Hin as [<-|Hin].
    + split; [now left|]. intros Hc.
      assert (H : existsb (String.eqb (category c)) added = true).
      { apply existsb_exists. exists (category c).
        split; [assumption|apply String.eqb_refl]. }
      congruence.
    + destruct (IH _ _ Hin) as [H1 H2]. split; [now right|].
      intros Hc. apply H2. now right.
Qed.

Lemma select_treatments_NoDup (candidates : list Ingredient) :
  forall added, NoDup (map category (select_treatments candidates added)).
Proof.
  induction candidates as [|c rest IH]; intros added; [constructor|].
  cbn [select_treatments].
  destruct (negb (existsb (String.eqb (category c)) added)); [|apply IH].
  cbn [map]. constructor; [|apply IH].
  intros Hin. apply in_map_iff in Hin. destruct Hin as (ing & Hcat & Hin).
  apply select_treatments_fresh in Hin. destruct Hin as [_ Hfresh].
  apply Hfresh. rewrite Hcat. now left.
Qed.

Lemma select_treatments_length (candidates : list Ingredient) :
  forall added,
    (List.length (select_treatments candidates added)
     <= List.length candidates)%nat.
Proof.
  induction candidates as [|c rest IH]; intros added; [reflexivity|].
  cbn [select_treatments].
  destruct (negb (existsb (String.eqb (category c)) added));
    cbn [List.length].
  - specialize (IH (category c :: added)). lia.
  - specialize (IH added). lia.
Qed.

Lemma moisturizer_steps_treatments (profile : SkinProfile)
    (l : list Ingredient) :
  moisturizer_steps (map (treatment_step profile) l) = [].
Proof. induction l as [|ing l IH]; [reflexivity|exact IH]. Qed.

Lemma suggest_routine_unfold (kg : IngredientKnowledgeGraph)
    (profile : SkinProfile) (time : RoutineTime) (budget : string) :
  suggest_routine kg profile time budget
  = (cleanser_step
     :: map (treatment_step profile) (treated kg profile time)
     ++ moisturizer_step
     :: match time with
        | AM => [sunscreen_step]
        | PM => []
        end)%list.
Proof.
  unfold suggest_routine, treated. now rewrite add_treatments_select.
Qed.

(** The moisturizer step of C8 is not always before the end: in the
    evening routine suggested on the sample catalog the only moisturizer
    step is the last entry. *)
Lemma suggest_routine_moisturizer_last :
  ~ moisturizer_before_end
      (suggest_routine Fixture.kg Fixture.aging_profile PM "moderate").
Proof.
  intros (pre & post & Heq & Hpost).
  assert (Hin : In moisturizer_step
                  (removelast
                     (suggest_routine Fixture.kg Fixture.aging_profile
                        PM "moderate"))).
  { rewrite Heq, removelast_app by discriminate.
    apply in_or_app. right.
    destruct post as [|s post]; [contradiction|]. now left. }
  vm_compute in Hin.
  destruct Hin as [H|[H|[H|[]]]]; discriminate H.
Qed.

(** C8.  A suggested routine is the cleanser step, then the treatment
    entries, then the one moisturizer step, then, in the morning only,
    the sunscreen step: the cleanser comes first; the treatment entries
    are at most 5, of ingredients recommended for the profile and valid
    for the time of day, no two of the same category; the moisturizer
    step occurs once, after the cleanser and the treatments, and is the
    last entry in the evening; the routine ends with the sunscreen step
    exactly in the morning. *)
Theorem suggest_routine_shape (kg : IngredientKnowledgeGraph)
    (profile : SkinProfile) (time : RoutineTime) (budget : string) :
  let suggested := suggest_routine kg profile time budget in
  let treatments := map (treatment_step profile) (treated kg profile time) in
  suggested
  = (cleanser_step :: treatments
     ++ moisturizer_step
     :: match time with AM => [sunscreen_step] | PM => [] end)%list
  /\ hd_error suggested = Some cleanser_step
  /\ (List.length treatments <= 5)%nat
  /\ NoDup (map category (treated kg profile time))
  /\ (forall ing,
         In ing (treated kg profile time) ->
         In ing (get_recommended_ingredients kg profile)
         /\ valid_for_time time ing = true)
  /\ moisturizer_steps suggested = [moisturizer_step]
  /\ (last suggested cleanser_step = sunscreen_step <-> time = AM)
  /\ (last suggested cleanser_step = moisturizer_step <-> time = PM).
Proof.
  intros suggested treatments. unfold suggested, treatments.
  rewrite suggest_routine_unfold.
  split; [reflexivity|]. split; [reflexivity|]. split.
  { rewrite length_map. unfold treated.
    etransitivity; [apply select_treatments_length|].
    apply firstn_le_length. }
  split; [apply select_treatments_NoDup|]. split.
  { intros ing Hin. unfold treated in Hin.
    apply select_treatments_fresh in Hin. destruct Hin as [Hin _].
    apply In_firstn in Hin. now apply filter_In in Hin. }
  split.
  { unfold moisturizer_steps. cbn [filter s_step cleanser_step].
    change (filter (fun s => String.eqb (s_step s) "Moisturizer")
              ?l) with (moisturizer_steps l).
    unfold moisturizer_steps. rewrite filter_app.
    fold (moisturizer_steps
            (map (treatment_step profile) (treated kg profile time))).
    rewrite moisturizer_steps_treatments.
    now destruct time. }
  pose proof (last_app_cons
                (cleanser_step
                 :: map (treatment_step profile) (treated kg profile time))
                match time with AM => [sunscreen_step] | PM => [] end
                moisturizer_step cleanser_step) as Hlast.
  rewrite <- app_comm_cons in Hlast. rewrite Hlast.
  destruct time; cbn [last]; (split; split); intros H;
    try reflexivity; discriminate H.
Qed.

(** * Further properties of the builder *)

(** ** Built routines are in order *)

Lemma StronglySorted_map_key {A : Type} (key : A -> Z) (l : list A) :
  StronglySorted (fun a b => key a <= key b) l <->
  StronglySorted Z.le (map key l).
Proof.
  induction l as [|x l IH]; cbn [map].
  - split; constructor.
  - split; intros H; apply StronglySorted_inv in H; destruct H as [Hs Hall];
      (constructor; [now apply IH|]).
    + rewrite Forall_map. exact Hall.
    + rewrite Forall_map in Hall. exact Hall.
Qed.

Lemma sorted_of_sorted {A : Type} (key : A -> Z) (l : list A) :
  StronglySorted (fun a b => key a <= key b) l -> sorted key l = l.
Proof.
  induction 1 as [|x l Hs IH Hall]; [reflexivity|].
  cbn [sorted]. rewrite IH.
  destruct Hall as [|y l Hxy _]; [reflexivity|].
  cbn [insert_by_key].
  destruct (Z.leb_spec (key x) (key y)); [reflexivity|lia].
Qed.

Lemma flat_map_map {A B C : Type} (g : A -> B) (f : B -> list C)
    (l : list A) :
  flat_map f (map g l) = flat_map (fun x => f (g x)) l.
Proof.
  induction l as [|x l IH]; [reflexivity|]. cbn [map flat_map].
  now rewrite IH.
Qed.

Section BuiltOrderFacts.

Variable kg : IngredientKnowledgeGraph.

Lemma built_step_orders (products : list Product) (time : RoutineTime)
    (profile : option SkinProfile) :
  map (_get_step_order kg)
      (steps (fst (build_routine kg products time profile)))
  = map (product_key kg) (sorted (product_key kg) products).
Proof.
  rewrite <- (build_routine_products kg products time profile).
  rewrite map_map. apply map_ext. intros step. reflexivity.
Qed.

Lemma check_later_nil_inv (i : nat) (step : RoutineStep)
    (rest : list RoutineStep) :
  forall j,
    check_later kg i step j rest = [] ->
    Forall (fun s => _get_step_order kg step <= _get_step_order kg s) rest.
Proof.
  induction rest as [|later rest IH]; intros j H; [constructor|].
  cbn [check_later] in H. apply app_eq_nil in H. destruct H as [Hhd Htl].
  constructor; [|now apply (IH (S j))].
  destruct (Z.gtb_spec (_get_step_order kg step) (_get_step_order kg later));
    [discriminate|lia].
Qed.

Lemma check_from_nil_inv (l : list RoutineStep) :
  forall i,
    check_from kg i l = [] ->
    StronglySorted Z.le (map (_get_step_order kg) l).
Proof.
  induction l as [|step rest IH]; intros i H; [constructor|].
  cbn [check_from] in H. apply app_eq_nil in H. destruct H as [Hhd Htl].
  cbn [map]. constructor; [now apply (IH (S i))|].
  rewrite Forall_map. now apply (check_later_nil_inv i step rest (i + 1)).
Qed.

End BuiltOrderFacts.

(** X1.  A routine made by [build_routine] never has an ordering issue,
    so its analysis is valid exactly when it lists no conflict. *)
Theorem build_routine_no_ordering_issue (kg : IngredientKnowledgeGraph)
    (products : list Product) (time : RoutineTime)
    (profile : option SkinProfile) :
  let analysis := snd (build_routine kg products time profile) in
  ordering_issues analysis = []
  /\ (is_valid analysis = true <-> conflicts analysis = []).
Proof.
  intros analysis.
  assert (Hord : ordering_issues analysis = []).
  { unfold analysis. cbn [build_routine snd analyze_routine ordering_issues].
    unfold _check_ordering. apply check_from_sorted.
    pose proof (built_step_orders kg products time profile) as H.
    cbn [build_routine fst] in H. cbn [steps] in *. rewrite H.
    apply (proj1 (StronglySorted_map_key _ _)), sorted_sorted. }
  split; [exact Hord|].
  unfold analysis in *.
  cbn [build_routine snd analyze_routine ordering_issues is_valid conflicts]
    in *.
  rewrite Hord. cbn [List.length Nat.eqb]. rewrite andb_true_r.
  now rewrite Nat.eqb_eq, length_zero_iff_nil.
Qed.

(** X2.  The ordering check of a routine finds nothing exactly when the
    effective orders of its steps never decrease. *)
Theorem check_ordering_nil_iff_sorted (kg : IngredientKnowledgeGraph)
    (routine : Routine) :
  _check_ordering kg routine = [] <->
  StronglySorted Z.le (map (_get_step_order kg) (steps routine)).
Proof.
  unfold _check_ordering. split.
  - apply check_from_nil_inv.
  - intros H. now apply check_from_sorted.
Qed.

(** X3.  Products given in non-decreasing order of their key are kept in
    the order given. *)
Theorem build_routine_keeps_sorted_input (kg : IngredientKnowledgeGraph)
    (products : list Product) (time : RoutineTime)
    (profile : option SkinProfile) :
  StronglySorted Z.le (map (product_key kg) products) ->
  map step_product (steps (fst (build_routine kg products time profile)))
  = products.
Proof.
  intros Hs. rewrite build_routine_products.
  apply sorted_of_sorted.
  now apply (proj2 (StronglySorted_map_key _ _)).
Qed.

(** On the sample catalog: a serum of order 4 before a cream of order 8. *)
Lemma build_routine_keeps_sorted_input_witness :
  map step_product
      (steps (fst (build_routine Fixture.kg
                     [Fixture.product "C serum" ["vitamin_c"];
                      Fixture.product "Night cream" ["ceramides"]]
                     PM None)))
  = [Fixture.product "C serum" ["vitamin_c"];
     Fixture.product "Night cream" ["ceramides"]].
Proof.
  apply build_routine_keeps_sorted_input.
  repeat constructor. vm_compute. discriminate.
Defined.

(** X4.  Building is idempotent: a routine built again from the products
    of its own steps has the same steps. *)
Theorem build_routine_idempotent (kg : IngredientKnowledgeGraph)
    (products : list Product) (time : RoutineTime)
    (profile profile' : option SkinProfile) :
  let built := steps (fst (build_routine kg products time profile)) in
  steps (fst (build_routine kg (map step_product built) time profile'))
  = built.
Proof.
  intros built. unfold built. rewrite build_routine_products.
  cbn [build_routine fst steps].
  now rewrite (sorted_of_sorted _ _ (sorted_sorted (product_key kg) products)).
Qed.

(** X5.  Building neither drops nor adds anything: there are as many
    steps as products, and the ingredients of the routine are those of
    the products, rearranged. *)
Theorem build_routine_keeps_ingredients (kg : IngredientKnowledgeGraph)
    (products : list Product) (time : RoutineTime)
    (profile : option SkinProfile) :
  let routine := fst (build_routine kg products time profile) in
  List.length (steps routine) = List.length products
  /\ Permutation (flat_map p_ingredients products)
                 (get_all_ingredients routine).
Proof.
  intros routine. unfold routine. split.
  - rewrite <- (length_map step_product), build_routine_products.
    symmetry. apply Permutation_length, sorted_perm.
  - assert (H : get_all_ingredients
                  (fst (build_routine kg products time profile))
                = flat_map p_ingredients
                    (map step_product
                       (steps (fst (build_routine kg products time
                                      profile))))).
    { unfold get_all_ingredients. now rewrite flat_map_map. }
    rewrite H, build_routine_products.
    apply Permutation_flat_map, sorted_perm.
Qed.

(** ** Missing essentials and suggestions *)

Lemma SkinConcern_eqb_eq (a b : SkinConcern) :
  SkinConcern_eqb a b = true <-> a = b.
Proof. destruct a, b; vm_compute; split; congruence. Qed.

Section AnalysisFacts.

Variable kg : IngredientKnowledgeGraph.

Lemma any_category_in_false (cats ids : list string) :
  any_category_in kg cats ids = false <->
  forall ing_id ing,
    In ing_id ids -> get_ingredient kg ing_id = Some ing ->
    ~ In (category ing) cats.
Proof.
  split.
  - intros Hf ing_id ing Hin Hget Hc.
    assert (H : any_category_in kg cats ids = true).
    { apply any_category_in_true. now exists ing_id, ing. }
    congruence.
  - intros Hno.
    destruct (any_category_in kg cats ids) eqn:E; [|reflexivity].
    apply any_category_in_true in E.
    destruct E as (ing_id & ing & Hin & Hget & Hc).
    exfalso. now apply (Hno ing_id ing).
Qed.

Lemma any_category_in_has (cat : string) (routine : Routine) :
  any_category_in kg [cat] (get_all_ingredients routine) = true
  <-> has_category kg cat routine.
Proof.
  rewrite any_category_in_true. unfold has_category.
  split; intros (ing_id & ing & Hin & E & Hc); exists ing_id, ing.
  - destruct Hc as [<-|[]]. auto.
  - rewrite Hc. simpl. auto.
Qed.

Lemma unresolved_step_order (step : RoutineStep) :
  (forall ing_id, In ing_id (ingredients step) ->
                  get_ingredient kg ing_id = None) ->
  _get_step_order kg step = 5.
Proof.
  intros Hnone. unfold _get_step_order.
  destruct (ingredients step) as [|i0 ids] eqn:E; [reflexivity|].
  destruct (collect_orders kg (i0 :: ids)) as [|o os] eqn:Eo; [reflexivity|].
  assert (Hin : In o (collect_orders kg (i0 :: ids))).
  { rewrite Eo. now left. }
  apply collect_orders_In in Hin.
  destruct Hin as (ing_id & ing & Hin & Hget & _).
  rewrite (Hnone ing_id Hin) in Hget. discriminate.
Qed.

Lemma constant_orders_sorted (l : list RoutineStep) :
  (forall step, In step l -> _get_step_order kg step = 5) ->
  StronglySorted Z.le (map (_get_step_order kg) l).
Proof.
  induction l as [|s l IH]; intros H; cbn [map]; constructor.
  - apply IH. intros step Hin. apply H. now right.
  - rewrite Forall_map, Forall_forall. intros step Hin.
    rewrite (H s), (H step); [lia|now right|now left].
Qed.

End AnalysisFacts.

(** X6.  The moisturizer entry is among the missing essentials of a
    routine exactly when none of its ingredients resolves to the category
    moisturizer or ceramide; an evening routine is never told that the
    sunscreen is missing; there are at most two entries. *)
Theorem missing_moisturizer_iff (kg : IngredientKnowledgeGraph)
    (routine : Routine) (profile : option SkinProfile) :
  let missing := missing_essentials (analyze_routine kg routine profile) in
  (In missing_moisturizer missing <->
   ~ has_category kg "moisturizer" routine
   /\ ~ has_category kg "ceramide" routine)
  /\ (time routine = PM -> ~ In missing_spf missing)
  /\ (List.length missing <= 2)%nat.
Proof.
  intros missing. unfold missing.
  cbn [analyze_routine missing_essentials].
  unfold _check_missing_essentials.
  set (spf := match time routine with
              | AM => _
              | PM => []
              end).
  assert (Hspf : spf = [] \/ spf = [missing_spf]).
  { unfold spf. destruct (time routine); [|now left].
    destruct (negb _); [now right|now left]. }
  destruct (any_category_in kg ["moisturizer"; "ceramide"]
              (get_all_ingredients routine)) eqn:E; cbn [negb].
  - apply any_category_in_true in E.
    destruct E as (ing_id & ing & Hin & Hget & Hc).
    split; [|split].
    + split.
      * intros H. apply in_app_or in H. destruct H as [H|[]].
        destruct Hspf as [Hs|Hs]; rewrite Hs in H; [contradiction|].
        destruct H as [H|[]]. discriminate H.
      * intros [Hm Hcer]. exfalso.
        destruct Hc as [Hc|[Hc|[]]];
          [apply Hm|apply Hcer]; now exists ing_id, ing.
    + intros Hpm H. unfold spf in H. rewrite Hpm in H. contradiction.
    + destruct Hspf as [Hs|Hs]; rewrite Hs; simpl; lia.
  - split; [|split].
    + split.
      * intros _.
        split; intros (ing_id & ing & Hin & Hget & Hc);
          apply (proj1 (any_category_in_false kg _ _) E ing_id ing Hin Hget);
          rewrite Hc; simpl; auto.
      * intros _. apply in_or_app. right. now left.
    + intros Hpm H. unfold spf in H. rewrite Hpm in H.
      destruct H as [H|[]]. discriminate H.
    + destruct Hspf as [Hs|Hs]; rewrite Hs; simpl; lia.
Qed.

(** On the sample catalog: an evening routine of a retinol serum misses
    the moisturizer and is not told about sunscreen. *)
Lemma missing_moisturizer_iff_witness :
  let routine :=
    {| time := PM;
       steps := [Fixture.step_of 1 "Retinol serum" ["retinol"]] |} in
  missing_essentials (analyze_routine Fixture.kg routine None)
  = [missing_moisturizer]
  /\ ~ In missing_spf
        (missing_essentials (analyze_routine Fixture.kg routine None)).
Proof.
  intros routine. split; [reflexivity|].
  apply (proj1 (proj2 (missing_moisturizer_iff Fixture.kg routine None))).
  reflexivity.
Defined.

(** X7.  The suggestions of an analysis hold the advice to add a retinoid
    exactly when a profile with the concern aging is given, the routine
    is for the evening and none of its ingredients resolves to the
    category retinoid.  Besides it there is one suggestion for each pair
    with a wait time and one for each conflict. *)
Theorem retinoid_suggestion_iff (kg : IngredientKnowledgeGraph)
    (routine : Routine) (profile : option SkinProfile) :
  let analysis := analyze_routine kg routine profile in
  let pairs :=
    (List.length
       (c_wait_times (check_compatibility kg (get_all_ingredients routine)))
     + List.length (conflicts analysis))%nat in
  (In retinoid_suggestion (suggestions analysis) <->
   wants_retinoid profile /\ time routine = PM
   /\ ~ has_category kg "retinoid" routine)
  /\ (In retinoid_suggestion (suggestions analysis) ->
      List.length (suggestions analysis) = S pairs)
  /\ (~ In retinoid_suggestion (suggestions analysis) ->
      List.length (suggestions analysis) = pairs).
Proof.
  intros analysis pairs. unfold pairs, analysis.
  cbn [analyze_routine suggestions conflicts].
  unfold _generate_suggestions.
  set (compat := check_compatibility kg (get_all_ingredients routine)).
  set (waits := map _ (c_wait_times compat)).
  set (removals := map _ (c_conflicts compat)).
  set (extra := match profile with Some _ => _ | None => [] end).
  assert (Hw : ~ In retinoid_suggestion waits).
  { unfold waits. intros H. apply in_map_iff in H.
    destruct H as (e & He & _). discriminate He. }
  assert (Hr : ~ In retinoid_suggestion removals).
  { unfold removals. intros H. apply in_map_iff in H.
    destruct H as (e & He & _). discriminate He. }
  assert (Hlen : (List.length (waits ++ removals ++ extra)
                  = List.length (c_wait_times compat)
                    + List.length (c_conflicts compat)
                    + List.length extra)%nat).
  { rewrite !length_app. unfold waits, removals. rewrite !length_map. lia. }
  assert (Hin : In retinoid_suggestion (waits ++ removals ++ extra)%list
                <-> In retinoid_suggestion extra).
  { rewrite !in_app_iff. tauto. }
  assert (Hextra :
    (extra = [retinoid_suggestion]
     /\ wants_retinoid profile /\ time routine = PM
     /\ ~ has_category kg "retinoid" routine)
    \/ (extra = []
        /\ ~ (wants_retinoid profile /\ time routine = PM
              /\ ~ has_category kg "retinoid" routine))).
  { unfold extra, wants_retinoid. destruct profile as [p|].
    - destruct (existsb (SkinConcern_eqb AGING) (concerns p)) eqn:Ea.
      + assert (Haging : In AGING (concerns p)).
        { apply existsb_exists in Ea. destruct Ea as (c & Hc & Heq).
          apply SkinConcern_eqb_eq in Heq. now subst c. }
        destruct (time routine) eqn:Et.
        * right. split; [reflexivity|]. intros (_ & H & _). discriminate H.
        * destruct (any_category_in kg ["retinoid"]
                      (get_all_ingredients routine)) eqn:Er; cbn [negb].
          -- right. split; [reflexivity|]. intros (_ & _ & H).
             apply H. now apply any_category_in_has.
          -- left. split; [reflexivity|].
             split; [now exists p|]. split; [reflexivity|].
             intros H. apply any_category_in_has in H. congruence.
      + right. split; [reflexivity|].
        intros ((p' & [= <-] & Hp) & _).
        assert (H : existsb (SkinConcern_eqb AGING) (concerns p) = true).
        { apply existsb_exists. exists AGING. split; [assumption|].
          now apply SkinConcern_eqb_eq. }
        congruence.
    - right. split; [reflexivity|]. intros ((p & [=] & _) & _). }
  rewrite Hin, Hlen.
  destruct Hextra as [(-> & Hcond)|(-> & Hcond)]; cbn [List.length].
  - split; [|split].
    + split; [intros _; exact Hcond|intros _; now left].
    + intros _. lia.
    + intros H. exfalso. apply H. now left.
  - split; [|split].
    + split; [intros []|intros H; now apply Hcond in H].
    + intros [].
    + intros _. lia.
Qed.

(** On the sample catalog: an evening routine without retinoid, analysed
    for a profile with the concern aging, gets the advice. *)
Lemma retinoid_suggestion_iff_witness :
  let routine :=
    {| time := PM;
       steps := [Fixture.step_of 1 "C serum" ["vitamin_c"]] |} in
  suggestions (analyze_routine Fixture.kg routine (Some Fixture.aging_profile))
  = [retinoid_suggestion]
  /\ List.length
       (suggestions
          (analyze_routine Fixture.kg routine (Some Fixture.aging_profile)))
     = 1%nat.
Proof.
  intros routine. split; [reflexivity|].
  apply (proj1 (proj2 (retinoid_suggestion_iff
                         Fixture.kg routine (Some Fixture.aging_profile)))).
  now left.
Defined.

(** X8.  In a routine none of whose ingredient ids resolves (an empty
    routine among them) every step has the default order, so no ordering
    issue is reported, and every essential is reported missing: the
    sunscreen in the morning, then the moisturizer. *)
Theorem analyze_unresolved_routine (kg : IngredientKnowledgeGraph)
    (routine : Routine) (profile : option SkinProfile) :
  (forall ing_id,
      In ing_id (get_all_ingredients routine) ->
      get_ingredient kg ing_id = None) ->
  ordering_issues (analyze_routine kg routine profile) = []
  /\ missing_essentials (analyze_routine kg routine profile)
     = match time routine with
       | AM => [missing_spf; missing_moisturizer]
       | PM => [missing_moisturizer]
       end.
Proof.
  intros Hnone. split.
  - cbn [analyze_routine ordering_issues]. unfold _check_ordering.
    apply check_from_sorted, constant_orders_sorted.
    intros step Hstep. apply unresolved_step_order.
    intros ing_id Hin. apply Hnone.
    unfold get_all_ingredients. apply in_flat_map. now exists step.
  - cbn [analyze_routine missing_essentials].
    unfold _check_missing_essentials.
    assert (Hf : forall cats,
               any_category_in kg cats (get_all_ingredients routine) = false).
    { intros cats. apply any_category_in_false.
      intros ing_id ing Hin Hget. rewrite (Hnone ing_id Hin) in Hget.
      discriminate. }
    rewrite !Hf. now destruct (time routine).
Qed.

(** On the sample catalog: a morning routine of one product with an
    unknown ingredient. *)
Lemma analyze_unresolved_routine_witness :
  let routine :=
    {| time := AM;
       steps := [Fixture.step_of 1 "Mystery" ["unknown"];
                 Fixture.step_of 2 "Empty" []] |} in
  ordering_issues (analyze_routine Fixture.kg routine None) = []
  /\ missing_essentials (analyze_routine Fixture.kg routine None)
     = [missing_spf; missing_moisturizer].
Proof.
  intros routine.
  apply (analyze_unresolved_routine Fixture.kg routine None).
  intros ing_id [<-|[]]. reflexivity.
Defined.

(** ** Time of day, wait times and orders *)

Section StepFacts.

Variable kg : IngredientKnowledgeGraph.

Lemma check_time_skips_unrestricted (time : RoutineTime)
    (before rest : list string) :
  ~ has_restricted kg time before ->
  _check_time_appropriateness kg (before ++ rest) time
  = _check_time_appropriateness kg rest time.
Proof.
  induction before as [|b before IH]; intros Hno; [reflexivity|].
  assert (Hno' : ~ has_restricted kg time before).
  { intros (i & ing & Hin & Hget & Hr). apply Hno.
    exists i, ing. split; [now right|]. now split. }
  rewrite <- app_comm_cons. cbn [_check_time_appropriateness].
  destruct (get_ingredient kg b) as [ing|] eqn:E; [|now apply IH].
  assert (Hb : ~ restricted_to_other time ing).
  { intros Hr. apply Hno. exists b, ing. split; [now left|]. now split. }
  destruct time; cbn [restricted_to_other] in Hb.
  - destruct (TimeOfDay_eqb (time_of_day ing) PM_ONLY) eqn:Et;
      [|now apply IH].
    apply TimeOfDay_eqb_eq in Et. contradiction.
  - destruct (TimeOfDay_eqb (time_of_day ing) AM_ONLY) eqn:Et;
      [|now apply IH].
    apply TimeOfDay_eqb_eq in Et. contradiction.
Qed.

Lemma product_order_bounds (ids : list string) :
  (forall ing_id ing,
      In ing_id ids -> get_ingredient kg ing_id = Some ing ->
      _get_product_order kg ids <= application_order ing)
  /\ ((exists ing_id ing,
          In ing_id ids /\ get_ingredient kg ing_id = Some ing
          /\ _get_product_order kg ids = application_order ing)
      \/ ((forall ing_id, In ing_id ids -> get_ingredient kg ing_id = None)
          /\ _get_product_order kg ids = 5)).
Proof.
  unfold _get_product_order. split.
  - intros ing_id ing Hin E.
    assert (Ho : In (application_order ing) (collect_orders kg ids)).
    { apply collect_orders_In. now exists ing_id, ing. }
    destruct ids as [|i0 ids']; [contradiction|].
    destruct (collect_orders kg (i0 :: ids')) as [|o os]; [contradiction|].
    now apply py_min_lower_bound.
  - destruct ids as [|i0 ids'].
    + right. split; [intros ? []|reflexivity].
    + destruct (collect_orders kg (i0 :: ids')) as [|o os] eqn:E.
      * right. split; [|reflexivity]. now apply collect_orders_nil.
      * left. pose proof (py_min_attained os o) as Hin.
        rewrite <- E in Hin. apply collect_orders_In in Hin.
        destruct Hin as (ing_id & ing & Hin & Hget & Heq).
        exists ing_id, ing. now rewrite Heq.
Qed.

Lemma product_order_incl (ids ids' : list string) :
  incl ids ids' ->
  (exists ing_id, In ing_id ids /\ get_ingredient kg ing_id <> None) ->
  _get_product_order kg ids' <= _get_product_order kg ids.
Proof.
  intros Hincl (i & Hi & Hres).
  destruct (product_order_bounds ids) as [_ [Hatt|[Hnone _]]].
  - destruct Hatt as (ing_id & ing & Hin & Hget & ->).
    apply (proj1 (product_order_bounds ids') ing_id ing); auto.
  - now rewrite (Hnone i Hi) in Hres.
Qed.

End StepFacts.

(** X9.  The time check of a list of ingredient ids succeeds, with an
    empty note, exactly when no id resolves to an ingredient restricted
    to the other time of day; otherwise the note is about the first such
    ingredient of the list. *)
Theorem check_time_first_restricted (kg : IngredientKnowledgeGraph)
    (time : RoutineTime) (ids : list string) :
  (~ has_restricted kg time ids <->
   _check_time_appropriateness kg ids time = (true, ""))
  /\ (forall before ing_id after ing,
         ids = (before ++ ing_id :: after)%list ->
         ~ has_restricted kg time before ->
         get_ingredient kg ing_id = Some ing ->
         restricted_to_other time ing ->
         _check_time_appropriateness kg ids time
         = (false, time_note time ing)).
Proof.
  split.
  - pose proof (check_time_appropriateness_spec kg time ids) as H.
    destruct (_check_time_appropriateness kg ids time) as [[|] note].
    + destruct H as [-> Hno]. split; [reflexivity|intros _; exact Hno].
    + split; [|discriminate].
      intros Hno. exfalso. apply Hno.
      destruct H as (i & ing & Hin & Hget & Hr & _). now exists i, ing.
  - intros before ing_id after ing -> Hno Hget Hr.
    rewrite check_time_skips_unrestricted by assumption.
    cbn [_check_time_appropriateness]. rewrite Hget.
    destruct time; cbn [restricted_to_other time_note] in *;
      apply TimeOfDay_eqb_eq in Hr; now rewrite Hr.
Qed.

(** On the sample catalog, in a morning build: vitamin C and an unknown
    id are passed over and the note is about retinol. *)
Lemma check_time_first_restricted_witness :
  _check_time_appropriateness Fixture.kg
    ["vitamin_c"; "unknown"; "retinol"; "spf"] AM
  = (false, "Retinol should only be used at night").
Proof.
  apply (proj2 (check_time_first_restricted Fixture.kg AM
                  ["vitamin_c"; "unknown"; "retinol"; "spf"])
           ["vitamin_c"; "unknown"] "retinol" ["spf"] Fixture.retinol).
  - reflexivity.
  - intros (i & ing & [<-|[<-|[]]] & Hget & Hr);
      vm_compute in Hget; [injection Hget as <-|]; discriminate.
  - reflexivity.
  - reflexivity.
Defined.

(** X10.  The wait time between two ingredient lists is 0 when either is
    empty, and it does not decrease when ingredients are added to either
    list. *)
Theorem calculate_wait_time_monotone (kg : IngredientKnowledgeGraph)
    (cur cur' nxt nxt' : list string) :
  _calculate_wait_time kg [] nxt = 0
  /\ _calculate_wait_time kg cur [] = 0
  /\ (incl cur cur' -> incl nxt nxt' ->
      _calculate_wait_time kg cur nxt <= _calculate_wait_time kg cur' nxt').
Proof.
  split; [reflexivity|]. split; [apply calculate_wait_time_nil|].
  intros Hc Hn.
  destruct (calculate_wait_time_spec kg cur nxt) as (_ & _ & Hatt).
  destruct (calculate_wait_time_spec kg cur' nxt') as (Hpos & Hub & _).
  destruct Hatt as [->|(a & b & Ha & Hb & Hw)]; [assumption|].
  apply (Hub a b); auto.
Qed.

(** On the sample catalog: adding niacinamide to the next product keeps
    the wait after retinol at least as long. *)
Lemma calculate_wait_time_monotone_witness :
  _calculate_wait_time Fixture.kg ["retinol"] ["vitamin_c"]
  <= _calculate_wait_time Fixture.kg
       ["retinol"; "niacinamide"] ["niacinamide"; "vitamin_c"].
Proof.
  apply (calculate_wait_time_monotone Fixture.kg).
  - intros x [<-|[]]. now left.
  - intros x [<-|[]]. right; now left.
Defined.

(** X11.  When the interaction lookup ignores the order of its arguments,
    the wait time between two ingredient lists is the same in both
    directions. *)
Theorem calculate_wait_time_symmetric (kg : IngredientKnowledgeGraph)
    (cur nxt : list string) :
  symmetric_interactions kg ->
  _calculate_wait_time kg cur nxt = _calculate_wait_time kg nxt cur.
Proof.
  intros Hsym.
  assert (Hle : forall l l',
             _calculate_wait_time kg l l' <= _calculate_wait_time kg l' l).
  { intros l l'.
    destruct (calculate_wait_time_spec kg l l') as (_ & _ & Hatt).
    destruct (calculate_wait_time_spec kg l' l) as (Hpos & Hub & _).
    destruct Hatt as [->|(a & b & Ha & Hb & (i & Hi & Hw))]; [assumption|].
    apply (Hub b a); auto. exists i. now rewrite <- Hsym. }
  apply Z.le_antisymm; apply Hle.
Qed.

Lemma find_pointwise {A : Type} (f g : A -> bool) (l : list A) :
  (forall x, f x = g x) -> find f l = find g l.
Proof.
  intros H. induction l as [|x l IH]; [reflexivity|].
  cbn [find]. now rewrite H, IH.
Qed.

Lemma Fixture_symmetric : symmetric_interactions Fixture.kg.
Proof.
  intros a b. cbn [get_interaction Fixture.kg].
  unfold Fixture.interaction_of. f_equal.
  apply find_pointwise. intros [[x y] i]. apply orb_comm.
Qed.

(** On the sample catalog, whose lookup is symmetric. *)
Lemma calculate_wait_time_symmetric_witness :
  _calculate_wait_time Fixture.kg ["retinol"; "niacinamide"] ["vitamin_c"]
  = _calculate_wait_time Fixture.kg ["vitamin_c"] ["retinol"; "niacinamide"].
Proof.
  apply calculate_wait_time_symmetric. exact Fixture_symmetric.
Defined.

(** X12.  The effective order of a product depends only on which
    ingredient ids it lists, not on their order or repetition; and
    listing more ids cannot raise the order of a product that has a
    resolving id. *)
Theorem product_order_same_ingredients (kg : IngredientKnowledgeGraph)
    (ids ids' : list string) :
  ((forall ing_id, In ing_id ids <-> In ing_id ids') ->
   _get_product_order kg ids = _get_product_order kg ids')
  /\ (incl ids ids' ->
      (exists ing_id, In ing_id ids /\ get_ingredient kg ing_id <> None) ->
      _get_product_order kg ids' <= _get_product_order kg ids).
Proof.
  split; [|apply product_order_incl].
  intros Hsame.
  assert (H12 : incl ids ids') by (intros x; apply Hsame).
  assert (H21 : incl ids' ids) by (intros x; apply Hsame).
  destruct (product_order_bounds kg ids) as [_ [Hatt|[Hnone H5]]].
  - destruct Hatt as (i & ing & Hin & Hget & _).
    apply Z.le_antisymm.
    + apply product_order_incl; [assumption|].
      exists i. split; [now apply H12|congruence].
    + apply product_order_incl; [assumption|].
      exists i. split; [assumption|congruence].
  - destruct (product_order_bounds kg ids') as [_ [Hatt'|[_ H5']]];
      [|congruence].
    destruct Hatt' as (i & ing & Hin & Hget & _).
    rewrite (Hnone i (H21 i Hin)) in Hget. discriminate.
Qed.

(** On the sample catalog: the same two ingredients, reordered and
    repeated. *)
Lemma product_order_same_ingredients_witness :
  _get_product_order Fixture.kg ["ceramides"; "vitamin_c"]
  = _get_product_order Fixture.kg ["vitamin_c"; "ceramides"; "vitamin_c"].
Proof.
  apply (proj1 (product_order_same_ingredients Fixture.kg
                  ["ceramides"; "vitamin_c"]
                  ["vitamin_c"; "ceramides"; "vitamin_c"])).
  intros x; simpl; tauto.
Defined.

(** ** Suggested treatments *)




(** ** Analysing a list of ingredient names *)

Lemma insert_str_not_nil (x : string) (l : list string) :
  insert_str x l <> [].
Proof.
  destruct l as [|y l]; cbn [insert_str]; [discriminate|].
  destruct (String.compare x y); discriminate.
Qed.

Lemma sorted_set_nil (l : list string) : sorted_set l = [] <-> l = [].
Proof.
  destruct l as [|x l]; [tauto|]. cbn [sorted_set fold_right].
  split; [|discriminate]. intros H. now apply insert_str_not_nil in H.
Qed.

Lemma flat_map_nil {A B : Type} (f : A -> list B) (l : list A) :
  flat_map f l = [] <-> forall x, In x l -> f x = [].
Proof.
  induction l as [|a l IH]; cbn [flat_map].
  - split; [intros _ ? []|reflexivity].
  - split.
    + intros H. apply app_eq_nil in H. destruct H as [Ha Hl].
      intros x [<-|Hin]; [assumption|]. now apply IH.
    + intros H. rewrite (H a (or_introl eq_refl)).
      apply IH. intros x Hin. apply H. now right.
Qed.

Lemma join_first_char (sep x : string) (rest : list string) (c : ascii) :
  String.get 0 x = Some c ->
  String.get 0 (join sep (x :: rest)) = Some c.
Proof.
  intros H. destruct x as [|c0 x]; [discriminate|].
  cbn [join]. now destruct rest.
Qed.

Section IdentifyFacts.

Variable kg : IngredientKnowledgeGraph.
Variable caution_for : Ingredient -> list string.

Lemma identify_unrecognized (names : list string) :
  snd (identify kg caution_for names)
  = filter (fun n => match get_ingredient kg n with
                     | Some _ => false
                     | None => true
                     end) names.
Proof.
  induction names as [|n names IH]; [reflexivity|].
  cbn [identify filter].
  destruct (identify kg caution_for names) as [found not_found].
  cbn [snd] in IH.
  destruct (get_ingredient kg n); cbn [snd]; now rewrite IH.
Qed.

Lemma identify_found (names : list string) :
  fst (identify kg caution_for names)
  = flat_map (fun n => match get_ingredient kg n with
                       | Some ing => [describe caution_for ing]
                       | None => []
                       end) names.
Proof.
  induction names as [|n names IH]; [reflexivity|].
  cbn [identify flat_map].
  destruct (identify kg caution_for names) as [found not_found].
  cbn [fst] in IH.
  destruct (get_ingredient kg n); cbn [fst app]; now rewrite IH.
Qed.

Lemma identify_lengths (names : list string) :
  (List.length (fst (identify kg caution_for names))
   + List.length (snd (identify kg caution_for names))
   = List.length names)%nat.
Proof.
  induction names as [|n names IH]; [reflexivity|].
  cbn [identify].
  destruct (identify kg caution_for names) as [found not_found].
  cbn [fst snd] in IH.
  destruct (get_ingredient kg n); cbn [fst snd List.length]; lia.
Qed.

End IdentifyFacts.

(** X14.  The analysis of a list of names accounts for every name once: a
    name that does not resolve is reported as unrecognized, a name that
    resolves gives one identified entry, both in the order given and
    with repetitions kept; the compatibility is checked on the ids of
    the identified ingredients. *)
Theorem analyze_ingredient_list_partition (kg : IngredientKnowledgeGraph)
    (caution_for : Ingredient -> list string) (names : list string) :
  let result := analyze_ingredient_list kg caution_for names in
  (List.length (identified_ingredients result)
   + List.length (unrecognized result) = List.length names)%nat
  /\ (forall n,
         In n (unrecognized result) <->
         In n names /\ get_ingredient kg n = None)
  /\ (forall e,
         In e (identified_ingredients result) <->
         exists n ing,
           In n names /\ get_ingredient kg n = Some ing
           /\ e = describe caution_for ing)
  /\ compatibility result
     = check_compatibility kg (map i_id (identified_ingredients result))
  /\ unrecognized result
     = filter (fun n => match get_ingredient kg n with
                        | Some _ => false
                        | None => true
                        end) names.
Proof.
  intros result. unfold result, analyze_ingredient_list.
  pose proof (identify_lengths kg caution_for names) as Hlen.
  pose proof (identify_unrecognized kg caution_for names) as Hun.
  pose proof (identify_found kg caution_for names) as Hfound.
  destruct (identify kg caution_for names) as [found not_found].
  cbn [fst snd] in *.
  cbn [identified_ingredients unrecognized compatibility].
  split; [exact Hlen|]. split; [|split; [|split; [reflexivity|]]].
  - intros n. rewrite Hun, filter_In.
    destruct (get_ingredient kg n); split; intros [H1 H2];
      (split; [assumption|congruence]).
  - intros e. rewrite Hfound, in_flat_map. split.
    + intros (n & Hin & He).
      destruct (get_ingredient kg n) as [ing|] eqn:E; [|contradiction].
      destruct He as [<-|[]]. now exists n, ing.
    + intros (n & ing & Hin & Hget & ->).
      exists n. split; [assumption|]. rewrite Hget. now left.
  - exact Hun.
Qed.

(** On the sample catalog: of three names, two resolve. *)
Lemma analyze_ingredient_list_partition_witness :
  let result :=
    analyze_ingredient_list Fixture.kg (fun _ => [])
      ["retinol"; "snake oil"; "vitamin_c"] in
  unrecognized result = ["snake oil"]
  /\ map i_id (identified_ingredients result) = ["retinol"; "vitamin_c"]
  /\ In "snake oil" (unrecognized result).
Proof.
  intros result. split; [reflexivity|]. split; [reflexivity|].
  apply (proj1 (proj2 (analyze_ingredient_list_partition
                         Fixture.kg (fun _ => [])
                         ["retinol"; "snake oil"; "vitamin_c"]))).
  split; [right; now left|reflexivity].
Defined.

(** X15.  The summary is the default sentence exactly when the
    compatibility lists no conflict and no synergy and no identified
    ingredient addresses a concern; cautions alone do not show in the
    summary. *)
Theorem generate_summary_default_iff (found : list Identified)
    (compat : Compatibility) :
  _generate_summary found compat = "No notable interactions found."
  <-> c_conflicts compat = [] /\ c_synergies compat = []
      /\ (forall e, In e found -> i_concerns_addressed e = []).
Proof.
  unfold _generate_summary.
  rewrite <- (flat_map_nil i_concerns_addressed found).
  rewrite <- (sorted_set_nil (flat_map i_concerns_addressed found)).
  assert (Hne : forall (x : string) (rest : list string) (c : ascii),
             String.get 0 x = Some c -> c <> "N"%char ->
             join newline (x :: rest) <> "No notable interactions found.").
  { intros x rest c Hget Hc Heq.
    pose proof (join_first_char newline x rest c Hget) as H.
    rewrite Heq in H. cbn in H. congruence. }
  destruct (c_conflicts compat) as [|cf cfs].
  - destruct (c_synergies compat) as [|sy sys].
    + destruct (sorted_set (flat_map i_concerns_addressed found))
        as [|k ks].
      * cbn [app]. tauto.
      * cbn [app]. split.
        -- intros H. exfalso. revert H. eapply Hne; [reflexivity|].
           discriminate.
        -- intros (_ & _ & H). discriminate H.
    + cbn [app]. split.
      * intros H. exfalso. revert H. eapply Hne; [reflexivity|].
        discriminate.
      * intros (_ & H & _). discriminate H.
  - cbn [app]. split.
    + intros H. exfalso. revert H. eapply Hne; [reflexivity|].
      discriminate.
    + intros (H & _). discriminate H.
Qed.

(** ** The flag and the advice of a comparison *)

Lemma Fixture_flag_agrees : flag_agrees Fixture.kg.
Proof.
  intros ids. cbn [check_compatibility Fixture.kg].
  unfold Fixture.compatibility_of. cbn [c_is_compatible c_conflicts].
  destruct (filter (Fixture.of_kind CONFLICT) (Fixture.pairs_of ids));
    cbn [map]; split; congruence.
Qed.

(** X16.  For a knowledge graph whose check reports [is_compatible]
    exactly when it lists no conflict, two products cannot be used
    together exactly when the recommendation is the one not to combine
    them. *)
Theorem compare_products_flag_advice (kg : IngredientKnowledgeGraph)
    (product_a product_b : list string) :
  flag_agrees kg ->
  (can_use_together (compare_products kg product_a product_b) = false
   <-> cmp_recommendation (compare_products kg product_a product_b)
       = advice_conflict).
Proof.
  intros Hflag. specialize (Hflag (product_a ++ product_b)%list).
  unfold compare_products, _generate_combination_advice.
  cbn [can_use_together cmp_recommendation].
  set (c := check_compatibility kg (product_a ++ product_b)) in *.
  destruct (c_conflicts c) as [|x xs].
  - rewrite (proj2 Hflag eq_refl). split; [discriminate|].
    destruct (c_cautions c); [|discriminate].
    destruct (c_synergies c); discriminate.
  - split; [intros _; reflexivity|]. intros _.
    destruct (c_is_compatible c); [|reflexivity].
    discriminate (proj1 Hflag eq_refl).
Qed.

(** On the sample catalog: retinol and benzoyl peroxide conflict. *)
Lemma compare_products_flag_advice_witness :
  can_use_together
    (compare_products Fixture.kg ["retinol"] ["benzoyl_peroxide"]) = false.
Proof.
  apply (proj2 (compare_products_flag_advice
                  Fixture.kg ["retinol"] ["benzoyl_peroxide"]
                  Fixture_flag_agrees)).
  reflexivity.
Defined.

(** * The concern table of the advisor *)

Lemma prefix_append (term post : string) :
  String.prefix term (term ++ post) = true.
Proof.
  induction term as [|a term IH]; cbn.
  - now destruct post.
  - destruct (Ascii.ascii_dec a a); [exact IH|congruence].
Qed.

Lemma prefix_inv (term : string) :
  forall text,
    String.prefix term text = true -> exists post, text = term ++ post.
Proof.
  induction term as [|a term IH]; intros text H.
  - now exists text.
  - destruct text as [|b text]; [discriminate|]. cbn in H.
    destruct (Ascii.ascii_dec a b) as [<-|]; [|discriminate].
    destruct (IH text H) as (post & ->). now exists post.
Qed.

Lemma contains_occurs_in (term text : string) :
  contains term text = true <-> occurs_in term text.
Proof.
  unfold occurs_in. split.
  - induction text as [|c text IH]; cbn [contains]; intros H;
      apply orb_true_iff in H; destruct H as [H|H]; try discriminate.
    + apply prefix_inv in H. destruct H as (post & ->). now exists "", post.
    + apply prefix_inv in H. destruct H as (post & ->). now exists "", post.
    + destruct (IH H) as (pre & post & ->). now exists (String c pre), post.
  - intros (pre & post & ->). induction pre as [|c pre IH].
    + cbn [append]. destruct (term ++ post) eqn:E; cbn [contains];
        rewrite <- E, prefix_append; reflexivity.
    + cbn [append contains]. rewrite IH. apply orb_true_r.
Qed.

Lemma find_first {A : Type} (f : A -> bool) (before after : list A) (x : A) :
  (forall y, In y before -> f y = false) -> f x = true ->
  find f (before ++ x :: after) = Some x.
Proof.
  intros Hb Hx. induction before as [|b before IH]; simpl.
  - now rewrite Hx.
  - rewrite (Hb b (or_introl eq_refl)). apply IH.
    intros y Hy. apply Hb. now right.
Qed.

(** X17.  The concern of a text is that of the first term of the table
    that occurs in it: there is none exactly when no term occurs in the
    text; a term that occurs wins over the terms that come later in the
    table; and each term of the table, taken as the text, gives its own
    concern. *)
Theorem find_concern_first_term (text : string) :
  (find_concern text = None <->
   forall term c, In (term, c) concern_mapping -> ~ occurs_in term text)
  /\ (forall c,
         find_concern text = Some c ->
         exists term, In (term, c) concern_mapping /\ occurs_in term text)
  /\ (forall before term c after,
         concern_mapping = (before ++ (term, c) :: after)%list ->
         occurs_in term text ->
         (forall t c', In (t, c') before -> ~ occurs_in t text) ->
         find_concern text = Some c)
  /\ Forall (fun entry => find_concern (fst entry) = Some (snd entry))
        concern_mapping.
Proof.
  unfold find_concern. split; [|split; [|split]].
  - destruct (find _ concern_mapping) as [[t c0]|] eqn:E; cbn [option_map].
    + split; [discriminate|]. intros H. exfalso.
      apply find_some in E. destruct E as [Hin Hc].
      apply (H t c0 Hin). now apply contains_occurs_in.
    + split; [|reflexivity]. intros _ term c Hin Hocc.
      apply contains_occurs_in in Hocc.
      pose proof (find_none _ _ E (term, c) Hin) as H.
      cbn [fst] in H. congruence.
  - intros c H.
    destruct (find _ concern_mapping) as [[t c0]|] eqn:E; [|discriminate].
    injection H as ->. apply find_some in E. destruct E as [Hin Hc].
    exists t. split; [assumption|]. now apply contains_occurs_in.
  - intros before term c after -> Hocc Hbefore.
    rewrite (find_first _ before after (term, c)); [reflexivity| |].
    + intros [t c'] Hin. cbn [fst].
      destruct (contains t text) eqn:E; [|reflexivity].
      apply contains_occurs_in in E. exfalso.
      exact (Hbefore t c' Hin E).
    + now apply contains_occurs_in.
  - unfold concern_mapping. repeat constructor.
Qed.

(** A text that names two concerns gets the one whose term comes first
    in the table. *)
Lemma find_concern_first_term_witness :
  find_concern "wrinkles and acne" = Some ACNE.
Proof.
  apply (proj1 (proj2 (proj2 (find_concern_first_term "wrinkles and acne")))
           [] "acne" ACNE (tl concern_mapping)).
  - reflexivity.
  - now exists "wrinkles and ", "".
  - intros t c' [].
Defined.

(** * What the analysis reads *)

Section ReadsFacts.

Variable kg : IngredientKnowledgeGraph.

Lemma step_orders_of_ingredients (l : list RoutineStep) :
  map (_get_step_order kg) l
  = map (_get_product_order kg) (map ingredients l).
Proof. rewrite map_map. apply map_ext. intros step. reflexivity. Qed.

Lemma get_all_ingredients_concat (routine : Routine) :
  get_all_ingredients routine
  = List.concat (map ingredients (steps routine)).
Proof. unfold get_all_ingredients. apply flat_map_concat_map. Qed.

Lemma out_of_order_orders (l l' : list RoutineStep) (ij : nat * nat) :
  map (_get_step_order kg) l = map (_get_step_order kg) l' ->
  out_of_order kg l ij = out_of_order kg l' ij.
Proof.
  intros H. unfold out_of_order, step_at.
  rewrite <- !(map_nth (_get_step_order kg)). now rewrite H.
Qed.

Lemma check_ordering_length (r r' : Routine) :
  map ingredients (steps r) = map ingredients (steps r') ->
  List.length (_check_ordering kg r) = List.length (_check_ordering kg r').
Proof.
  intros H. unfold _check_ordering.
  pose proof (check_from_pairs kg (steps r) []) as E.
  pose proof (check_from_pairs kg (steps r') []) as E'.
  cbn [List.length] in E, E'. rewrite E, E'. clear E E'.
  rewrite !app_nil_l, !length_map.
  assert (Hlen : List.length (steps r) = List.length (steps r')).
  { rewrite <- (length_map ingredients (steps r)), H. apply length_map. }
  rewrite Hlen. f_equal. apply filter_ext. intros ij.
  apply out_of_order_orders.
  rewrite !step_orders_of_ingredients. now rewrite H.
Qed.

End ReadsFacts.

(** X18.  The analysis of a routine reads the time of day and the
    ingredient lists of the steps, in order, and nothing else of the
    steps: two routines that agree on these have the same validity, the
    same conflicts, cautions, synergies, missing essentials and
    suggestions, and as many ordering issues; the names, positions,
    waits and notes of the steps only show in the text of the ordering
    issues. *)
Theorem analyze_routine_reads_ingredients (kg : IngredientKnowledgeGraph)
    (r r' : Routine) (profile : option SkinProfile) :
  time r = time r' ->
  map ingredients (steps r) = map ingredients (steps r') ->
  let a := analyze_routine kg r profile in
  let a' := analyze_routine kg r' profile in
  is_valid a = is_valid a'
  /\ conflicts a = conflicts a'
  /\ cautions a = cautions a'
  /\ synergies a = synergies a'
  /\ missing_essentials a = missing_essentials a'
  /\ suggestions a = suggestions a'
  /\ List.length (ordering_issues a) = List.length (ordering_issues a').
Proof.
  intros Htime Hing a a'. unfold a, a'.
  assert (Hall : get_all_ingredients r = get_all_ingredients r').
  { rewrite !get_all_ingredients_concat. now rewrite Hing. }
  pose proof (check_ordering_length kg r r' Hing) as Hlen.
  cbn [analyze_routine is_valid conflicts cautions synergies
       missing_essentials suggestions ordering_issues].
  unfold _check_missing_essentials, _generate_suggestions.
  rewrite Hall, Htime, Hlen. repeat split; reflexivity.
Qed.

(** On the sample catalog: the same two products under other names,
    positions and notes. *)
Lemma analyze_routine_reads_ingredients_witness :
  let r :=
    {| time := PM;
       steps := [Fixture.step_of 1 "Retinol serum" ["retinol"];
                 Fixture.step_of 2 "C serum" ["vitamin_c"]] |} in
  let r' :=
    {| time := PM;
       steps := [{| order := 7; product_name := "A";
                    ingredients := ["retinol"]; wait_after := 30;
                    notes := "night" |};
                 {| order := 7; product_name := "B";
                    ingredients := ["vitamin_c"]; wait_after := 0;
                    notes := "" |}] |} in
  is_valid (analyze_routine Fixture.kg r None)
  = is_valid (analyze_routine Fixture.kg r' None)
  /\ ordering_issues (analyze_routine Fixture.kg r None)
     <> ordering_issues (analyze_routine Fixture.kg r' None).
Proof.
  intros r r'. split; [|discriminate].
  apply (analyze_routine_reads_ingredients Fixture.kg r r' None);
    reflexivity.
Defined.
